(** * The chat backend of the AI English speaking partner

    A shallow embedding of [backend/main.py]: the model-selection
    bootstrap that runs at import time, the bounded per-session history
    ([manage_history]) and the [/chat] request handler
    ([chat_endpoint]), followed by the properties the specification
    states about them.

    Conventions of the embedding.
    - A Python [str] is a Rocq [string].  Case mapping and white space are
      those of the ASCII range, which is what [str.upper], [str.lower] and
      [str.strip] do to a text of that range ([isascii]); the statements
      about the case of a text supplied from outside (a mode, a model
      identifier) are made for texts of that range, and say so.
    - A Python value decoded from JSON is a [json] term; numbers keep
      their lexeme.
    - An exception is a value of [exn]; a computation that may raise
      returns [result A], and a [try]/[except Exception] block is a match
      on it.
    - The module globals [model], [TARGET_MODEL_NAME] and [conversations]
      are the fields of [state], threaded through every call.
    - What the outside world answers during one request (the identifier
      drawn by [uuid.uuid4] and the behaviour of the provider) is an
      argument of the handler, so it is quantified over in the theorems.
    - Over the life of a process [uuid.uuid4] is a source of identifiers
      that never repeats itself ([uuid_source]); [worlds] hands its
      identifiers to the requests that ask for one.
    - The handler is an [async def] without any [await]: requests run one
      after the other, and a run of the server is a list of requests. *)

From Stdlib Require Import String Ascii List Arith Bool Lia.
From stdpp Require Import gmap strings list pretty.

(** ** Exceptions and results *)

Inductive exn : Type :=
  | JSONDecodeError (msg : string)
  | AttributeError (msg : string)
  | IndexError (msg : string)
  | KeyError (msg : string)
  | ProviderError (msg : string).

(** [str(e)] *)
Definition str_exn (e : exn) : string :=
  match e with
  | JSONDecodeError m | AttributeError m | IndexError m
  | KeyError m | ProviderError m => m
  end.

Inductive result (A : Type) : Type :=
  | Return (a : A)
  | Raise (e : exn).
Arguments Return {A} a.
Arguments Raise {A} e.

#[global] Instance result_ret : MRet result := @Return.
#[global] Instance result_bind : MBind result :=
  fun A B (k : A -> result B) (c : result A) =>
    match c with
    | Return a => k a
    | Raise e => Raise e
    end.

(** ** Strings *)

Module Str.

Definition dquote : string := String "034"%char EmptyString.
Definition newline : string := String "010"%char EmptyString.

(** [s] between two double quotes. *)
Definition quoted (s : string) : string := dquote +:+ s +:+ dquote.

(** Truthiness of a [str]: only the empty string is falsy. *)
Definition truthy (s : string) : bool :=
  match s with EmptyString => false | String _ _ => true end.

(** [a or b] on an optional string ([None] and the empty string are
    falsy). *)
Definition or_else (a : option string) (b : string) : string :=
  match a with
  | Some s => if truthy s then s else b
  | None => b
  end.

(** [s.startswith(p)] *)
Fixpoint starts_with (p s : string) : bool :=
  match p with
  | EmptyString => true
  | String a p' =>
      match s with
      | EmptyString => false
      | String b s' => Ascii.eqb a b && starts_with p' s'
      end
  end.

(** [sub in s] *)
Fixpoint contains (sub s : string) : bool :=
  if starts_with sub s then true
  else match s with
       | EmptyString => false
       | String _ s' => contains sub s'
       end.

(** [s[n:]] for a natural [n] *)
Fixpoint skip (n : nat) (s : string) : string :=
  match n with
  | O => s
  | S n' => match s with
            | EmptyString => EmptyString
            | String _ s' => skip n' s'
            end
  end.

(** [s.partition(sep)], with [None] when [sep] does not occur:
    the text before the first occurrence and the text after it. *)
Fixpoint partition (sep s : string) : option (string * string) :=
  if starts_with sep s then Some (EmptyString, skip (String.length sep) s)
  else match s with
       | EmptyString => None
       | String c s' =>
           match partition sep s' with
           | Some (b, a) => Some (String c b, a)
           | None => None
           end
       end.

(** [s.split(sep)] for a non-empty [sep]: occurrences are found from
    left to right and do not overlap.  Every step consumes at least one
    character, so [String.length s] rounds are enough
    (see [split_fuel_enough]). *)
Fixpoint split_fuel (fuel : nat) (sep s : string) : list string :=
  match fuel with
  | O => [s]
  | S fuel' =>
      match partition sep s with
      | None => [s]
      | Some (b, a) => b :: split_fuel fuel' sep a
      end
  end.

Definition split (sep s : string) : list string :=
  split_fuel (String.length s) sep s.

(** [sep.join(l)] *)
Fixpoint join (sep : string) (l : list string) : string :=
  match l with
  | [] => EmptyString
  | [x] => x
  | x :: l' => x +:+ sep +:+ join sep l'
  end.

Definition is_upper (c : ascii) : bool :=
  (65 <=? nat_of_ascii c) && (nat_of_ascii c <=? 90).
Definition is_lower (c : ascii) : bool :=
  (97 <=? nat_of_ascii c) && (nat_of_ascii c <=? 122).

Definition upper_char (c : ascii) : ascii :=
  if is_lower c then ascii_of_nat (nat_of_ascii c - 32) else c.
Definition lower_char (c : ascii) : ascii :=
  if is_upper c then ascii_of_nat (nat_of_ascii c + 32) else c.

Fixpoint map_chars (f : ascii -> ascii) (s : string) : string :=
  match s with
  | EmptyString => EmptyString
  | String c s' => String (f c) (map_chars f s')
  end.

(** [s.upper()] and [s.lower()] *)
Definition upper : string -> string := map_chars upper_char.
Definition lower : string -> string := map_chars lower_char.

(** White space of [str.strip()]: tab, line feed, vertical tab, form
    feed, carriage return, the four separators 28 to 31, and space. *)
Definition is_space (c : ascii) : bool :=
  let n := nat_of_ascii c in
  ((9 <=? n) && (n <=? 13)) || ((28 <=? n) && (n <=? 32)).

Fixpoint lstrip (s : string) : string :=
  match s with
  | EmptyString => EmptyString
  | String c s' => if is_space c then lstrip s' else s
  end.

Fixpoint rstrip (s : string) : string :=
  match s with
  | EmptyString => EmptyString
  | String c s' =>
      match rstrip s' with
      | EmptyString => if is_space c then EmptyString else String c EmptyString
      | r => String c r
      end
  end.

(** [s.strip()] *)
Definition strip (s : string) : string := rstrip (lstrip s).

End Str.

(** ** JSON values and the decoder *)

#[warnings="-register-all"]
Inductive json : Type :=
  | JNull
  | JBool (b : bool)
  | JNum (lexeme : string)
  | JStr (s : string)
  | JArr (items : list json)
  | JObj (fields : list (string * json)).

(** A decoded object is a [dict]: keys are unique, a repeated key keeps
    its first position and takes the last value. *)
Fixpoint dict_set (k : string) (v : json) (d : list (string * json))
  : list (string * json) :=
  match d with
  | [] => [(k, v)]
  | (k', v') :: d' =>
      if String.eqb k k' then (k, v) :: d' else (k', v') :: dict_set k v d'
  end.

Fixpoint dict_lookup (k : string) (d : list (string * json)) : option json :=
  match d with
  | [] => None
  | (k', v) :: d' => if String.eqb k k' then Some v else dict_lookup k d'
  end.

(** The name of the Python type of a decoded value, as it appears in the
    text of an [AttributeError]. *)
Definition type_name (v : json) : string :=
  match v with
  | JNull => "NoneType"
  | JBool _ => "bool"
  | JNum l =>
      if Str.contains "." l || Str.contains "e" l || Str.contains "E" l
         || Str.contains "N" l || Str.contains "I" l
      then "float" else "int"
  | JStr _ => "str"
  | JArr _ => "list"
  | JObj _ => "dict"
  end.

(** [data.get(key, default)]: defined on a [dict] only. *)
Definition py_get (data : json) (key : string) (default : json) : result json :=
  match data with
  | JObj d => Return (from_option id default (dict_lookup key d))
  | v => Raise (AttributeError
                  ("'" +:+ type_name v +:+ "' object has no attribute 'get'"))
  end.

(** The decoder behind [json.loads], on the grammar of RFC 8259 with the
    three extra literals Python accepts ([NaN], [Infinity], [-Infinity]).
    A failure is a [JSONDecodeError] that carries the decoder's message
    without its position suffix.  [fuel] bounds the nesting depth and the
    number of members: twice the length of the text is always enough
    (see [json_loads_fuel]). *)
Module Decoder.

Definition is_ws (c : ascii) : bool :=
  Ascii.eqb c " " || Ascii.eqb c "009" || Ascii.eqb c "010" || Ascii.eqb c "013".

Fixpoint skip_ws (s : string) : string :=
  match s with
  | EmptyString => EmptyString
  | String c s' => if is_ws c then skip_ws s' else s
  end.

Definition is_digit (c : ascii) : bool :=
  (48 <=? nat_of_ascii c) && (nat_of_ascii c <=? 57).

Definition hex_val (c : ascii) : option N :=
  let n := N_of_ascii c in
  if (48 <=? n)%N && (n <=? 57)%N then Some (n - 48)%N
  else if (65 <=? n)%N && (n <=? 70)%N then Some (n - 55)%N
  else if (97 <=? n)%N && (n <=? 102)%N then Some (n - 87)%N
  else None.

Definition byte (n : N) : string := String (ascii_of_N n) EmptyString.

(** The UTF-8 bytes of a code point. *)
Definition utf8 (cp : N) : string :=
  if (cp <? 128)%N then byte cp
  else if (cp <? 2048)%N then
    byte (192 + cp / 64) +:+ byte (128 + cp mod 64)
  else if (cp <? 65536)%N then
    byte (224 + cp / 4096) +:+ byte (128 + (cp / 64) mod 64)
    +:+ byte (128 + cp mod 64)
  else
    byte (240 + cp / 262144) +:+ byte (128 + (cp / 4096) mod 64)
    +:+ byte (128 + (cp / 64) mod 64) +:+ byte (128 + cp mod 64).

Definition is_high (u : N) : bool := (55296 <=? u)%N && (u <=? 56319)%N.
Definition is_low (u : N) : bool := (56320 <=? u)%N && (u <=? 57343)%N.

(** Where the scanner of a string literal stands: in plain text, just
    after a backslash, or inside a [\uXXXX] escape with [k] digits to
    read after the next one. *)
Inductive sstate : Type :=
  | Plain
  | Escaped
  | Hex (k : nat) (acc : N).

Definition flush (pending : option N) (out : string) : string :=
  match pending with
  | Some hi => out +:+ utf8 hi
  | None => out
  end.

Definition unescape (c : ascii) : option string :=
  if Ascii.eqb c "034" then Some Str.dquote
  else if Ascii.eqb c "\" then Some "\"
  else if Ascii.eqb c "/" then Some "/"
  else if Ascii.eqb c "b" then Some (byte 8)
  else if Ascii.eqb c "f" then Some (byte 12)
  else if Ascii.eqb c "n" then Some (byte 10)
  else if Ascii.eqb c "r" then Some (byte 13)
  else if Ascii.eqb c "t" then Some (byte 9)
  else None.

(** The body of a string literal, after its opening quote.  [pending]
    is a high surrogate read from the last escape, kept until the next
    escape tells whether it is half of a pair. *)
Fixpoint scan_string (st : sstate) (pending : option N) (out s : string)
  : result (string * string) :=
  match s with
  | EmptyString => Raise (JSONDecodeError "Unterminated string starting at")
  | String c r =>
      match st with
      | Plain =>
          if Ascii.eqb c "034" then Return (flush pending out, r)
          else if Ascii.eqb c "\" then scan_string Escaped pending out r
          else if nat_of_ascii c <? 32
          then Raise (JSONDecodeError "Invalid control character at")
          else scan_string Plain None (String.append (flush pending out) (String c EmptyString)) r
      | Escaped =>
          if Ascii.eqb c "u" then scan_string (Hex 3 0%N) pending out r
          else match unescape c with
               | Some t => scan_string Plain None (flush pending out +:+ t) r
               | None => Raise (JSONDecodeError "Invalid \escape")
               end
      | Hex k acc =>
          match hex_val c with
          | None => Raise (JSONDecodeError "Invalid \uXXXX escape")
          | Some d =>
              let u := (acc * 16 + d)%N in
              match k with
              | S k' => scan_string (Hex k' u) pending out r
              | O =>
                  match pending with
                  | Some hi =>
                      if is_low u
                      then scan_string Plain None
                             (out +:+ utf8 (65536 + (hi - 55296) * 1024 + (u - 56320))%N) r
                      else if is_high u
                      then scan_string Plain (Some u) (out +:+ utf8 hi) r
                      else scan_string Plain None (out +:+ utf8 hi +:+ utf8 u) r
                  | None =>
                      if is_high u then scan_string Plain (Some u) out r
                      else scan_string Plain None (out +:+ utf8 u) r
                  end
              end
          end
      end
  end.

Fixpoint take_digits (s : string) : string * string :=
  match s with
  | EmptyString => (EmptyString, EmptyString)
  | String c r =>
      if is_digit c
      then let '(d, r') := take_digits r in (String c d, r')
      else (EmptyString, s)
  end.

(** An optional part of a number: [lead], an optional sign when
    [signed], and at least one digit; nothing is consumed when it does
    not match. *)
Definition scan_part (lead : ascii -> bool) (signed : bool) (s : string)
  : string * string :=
  match s with
  | String c r =>
      if lead c then
        let '(sg, r1) :=
          match r with
          | String c1 r1 =>
              if signed && (Ascii.eqb c1 "+" || Ascii.eqb c1 "-")
              then (String c1 EmptyString, r1) else (EmptyString, r)
          | EmptyString => (EmptyString, r)
          end in
        match take_digits r1 with
        | (EmptyString, _) => (EmptyString, s)
        | (d, r2) => (String c (sg +:+ d), r2)
        end
      else (EmptyString, s)
  | EmptyString => (EmptyString, s)
  end.

(** The longest prefix that is a JSON number. *)
Definition scan_number (s : string) : option (string * string) :=
  let '(sg, s1) :=
    match s with
    | String c r => if Ascii.eqb c "-" then ("-", r) else (EmptyString, s)
    | EmptyString => (EmptyString, s)
    end in
  let int_part :=
    match s1 with
    | String c r =>
        if Ascii.eqb c "0" then Some ("0", r)
        else if is_digit c then Some (take_digits s1)
        else None
    | EmptyString => None
    end in
  match int_part with
  | None => None
  | Some (i, s2) =>
      let '(f, s3) := scan_part (fun c => Ascii.eqb c ".") false s2 in
      let '(e, s4) :=
        scan_part (fun c => Ascii.eqb c "e" || Ascii.eqb c "E") true s3 in
      Some (sg +:+ i +:+ f +:+ e, s4)
  end.

Definition expecting_value : exn := JSONDecodeError "Expecting value".

(** Raised when [fuel] runs out; [json_loads_fuel] shows that it never
    does. *)
Definition depth_exceeded : exn :=
  JSONDecodeError "maximum recursion depth exceeded".

Fixpoint parse_value (fuel : nat) (s : string) : result (json * string) :=
  match fuel with
  | O => Raise depth_exceeded
  | S f =>
      match s with
      | EmptyString => Raise expecting_value
      | String c r =>
          if Ascii.eqb c "034" then
            '(t, r') ← scan_string Plain None EmptyString r;
            Return (JStr t, r')
          else if Ascii.eqb c "{" then
            match skip_ws r with
            | String c1 r1 =>
                if Ascii.eqb c1 "}" then Return (JObj [], r1)
                else parse_members f [] (String c1 r1)
            | EmptyString => parse_members f [] EmptyString
            end
          else if Ascii.eqb c "[" then
            match skip_ws r with
            | String c1 r1 =>
                if Ascii.eqb c1 "]" then Return (JArr [], r1)
                else parse_elements f [] (String c1 r1)
            | EmptyString => parse_elements f [] EmptyString
            end
          else if Str.starts_with "null" s then Return (JNull, Str.skip 4 s)
          else if Str.starts_with "true" s then Return (JBool true, Str.skip 4 s)
          else if Str.starts_with "false" s then Return (JBool false, Str.skip 5 s)
          else
            match scan_number s with
            | Some (l, r') => Return (JNum l, r')
            | None =>
                if Str.starts_with "NaN" s then Return (JNum "NaN", Str.skip 3 s)
                else if Str.starts_with "Infinity" s
                then Return (JNum "Infinity", Str.skip 8 s)
                else if Str.starts_with "-Infinity" s
                then Return (JNum "-Infinity", Str.skip 9 s)
                else Raise expecting_value
            end
      end
  end
with parse_elements (fuel : nat) (acc : list json) (s : string)
  : result (json * string) :=
  match fuel with
  | O => Raise depth_exceeded
  | S f =>
      '(v, r) ← parse_value f s;
      match skip_ws r with
      | String c r' =>
          if Ascii.eqb c "," then parse_elements f (v :: acc) (skip_ws r')
          else if Ascii.eqb c "]" then Return (JArr (rev (v :: acc)), r')
          else Raise (JSONDecodeError "Expecting ',' delimiter")
      | EmptyString => Raise (JSONDecodeError "Expecting ',' delimiter")
      end
  end
with parse_members (fuel : nat) (acc : list (string * json)) (s : string)
  : result (json * string) :=
  match fuel with
  | O => Raise depth_exceeded
  | S f =>
      match s with
      | String c r =>
          if Ascii.eqb c "034" then
            '(k, r1) ← scan_string Plain None EmptyString r;
            match skip_ws r1 with
            | String c2 r2 =>
                if Ascii.eqb c2 ":" then
                  '(v, r3) ← parse_value f (skip_ws r2);
                  match skip_ws r3 with
                  | String c3 r4 =>
                      if Ascii.eqb c3 ","
                      then parse_members f (dict_set k v acc) (skip_ws r4)
                      else if Ascii.eqb c3 "}"
                      then Return (JObj (dict_set k v acc), r4)
                      else Raise (JSONDecodeError "Expecting ',' delimiter")
                  | EmptyString =>
                      Raise (JSONDecodeError "Expecting ',' delimiter")
                  end
                else Raise (JSONDecodeError "Expecting ':' delimiter")
            | EmptyString => Raise (JSONDecodeError "Expecting ':' delimiter")
            end
          else Raise (JSONDecodeError
                        "Expecting property name enclosed in double quotes")
      | EmptyString =>
          Raise (JSONDecodeError
                   "Expecting property name enclosed in double quotes")
      end
  end.

(** A step of the decoder went well on [s]: it did not run out of fuel,
    and what it leaves to read is no longer than [s]. *)
Definition fine (x : result (json * string)) (s : string) : Prop :=
  match x with
  | Return (_, r) => String.length r <= String.length s
  | Raise e => e <> depth_exceeded
  end.

(** [json.loads(s)]: one value, white space around it, nothing else. *)
Definition json_loads (s : string) : result json :=
  '(v, r) ← parse_value (2 * String.length s + 2) (skip_ws s);
  match skip_ws r with
  | EmptyString => Return v
  | String _ _ => Raise (JSONDecodeError "Extra data")
  end.

End Decoder.

Definition json_loads : string -> result json := Decoder.json_loads.

(** ** Data models *)

Module ChatRequest.
Record t : Type := new {
  user_message : string;
  mode : option string;
  session_id : option string
}.
End ChatRequest.

Module ChatResponse.
Record t : Type := new {
  ai_reply : string;
  grammar_correction : option string;
  session_id : string
}.
End ChatResponse.

(** One entry of a history: [{"role": r, "parts": [p]}]. *)
Record message : Type := Message {
  role : string;
  parts : list json
}.

(** The handle returned by [genai.GenerativeModel(name)]. *)
Record GenerativeModel : Type := { model_name : string }.

(** The module globals. *)
Record state : Type := State {
  model : option GenerativeModel;
  TARGET_MODEL_NAME : string;
  conversations : gmap string (list message)
}.

(** ** The prompt templates *)

Definition CHAT_PROMPT : string :=
  "
You are a warm, supportive, and casual AI English conversation partner.
Speak like a friendly human, not a teacher. Encourage confidence and free expression.
Use simple, natural English. Keep responses conversational and engaging.
Ask follow-up questions to keep the chat flowing.
Do NOT correct grammar unless the user explicitly asks.
Avoid long explanations or lectures.
Do not evaluate or score the user. Do not act as a tutor or interviewer.
Do not mention being an AI or a language model.

Output your response in JSON format with two keys:
1. " +:+
  Str.quoted "ai_reply" +:+
  ": Your conversational response. Keep it natural, somewhat concise (1-3 sentences), and supportive.
2. " +:+
  Str.quoted "grammar_correction" +:+
  ": Return null unless the user asks for correction.
".

Definition INTERVIEW_PROMPT : string :=
  "
You are an expert AI Job Interviewer. Your goal is to conduct a highly dynamic, realistic, and adaptive mock interview.

DYNAMIC FLOW RULES:
1. START: If the user's target job role is unknown, your first question MUST be to ask what position they are interviewing for.
2. ADAPT: Do NOT use fixed questions. Generate questions based on the user's target role, their previous answers, and the natural flow of a professional conversation.
3. DEPTH: Ask follow-up questions if an answer is vague or interesting. Challenge the user like a real interviewer would.
4. ONE AT A TIME: Ask ONLY one question at a time. Wait for the user's response.
5. LENGTH: Aim for a focused interview of about 5-8 questions. If you feel the interview has reached a natural conclusion, provide the FINAL EVALUATION.

FEEDBACK MECHANISM (After every user answer):
You MUST provide constructive feedback in the " +:+
  Str.quoted "grammar_correction" +:+
  " field using this EXACT format:
📝 Feedback: [Concise feedback on their answer's content and delivery]
⭐ Score: [X] / 10
💡 Improvement Tip: [One specific actionable suggestion]

RESPONSE STRUCTURE:
The " +:+
  Str.quoted "ai_reply" +:+
  " field should contain ONLY your next interview question or follow-up.

FINAL EVALUATION:
When the interview is complete (or the user wants to stop):
- " +:+
  Str.quoted "ai_reply" +:+
  " should contain a comprehensive summary:
  - Overall Performance Summary
  - Key Strengths & Areas for Improvement
  - Final Interview Score
  - 3 Actionable Tips for the real interview
- " +:+
  Str.quoted "grammar_correction" +:+
  " can be null for the final evaluation.

Output your response in JSON format with two keys:
1. " +:+
  Str.quoted "ai_reply" +:+
  ": Your next question or the final evaluation.
2. " +:+
  Str.quoted "grammar_correction" +:+
  ": The mandatory feedback/score/tip for the last answer (except for the start/end where it might be null).

Constraints:
- Maintain a professional, fair, and slightly challenging tone.
- Do not mention you are an AI. Stay in character as the interviewer.
".

(** ** The model-selection bootstrap *)

(** What the process finds around it at import time: the two environment
    variables and the behaviour of the provider library. *)
Record startup : Type := {
  env_GOOGLE_API_KEY : option string;
  env_GEMINI_API_KEY : option string;
  configure : string -> result unit;
  list_models : result (list string);
  new_model : string -> result unit
}.

(** [a or b] on two optional strings. *)
Definition py_or (a b : option string) : option string :=
  match a with
  | Some s => if Str.truthy s then a else b
  | None => b
  end.

(** Truthiness of an optional string. *)
Definition truthy_opt (a : option string) : bool :=
  match a with
  | Some s => Str.truthy s
  | None => false
  end.

Definition priority_models : list string :=
  [ "models/gemma-3-27b-it";
    "models/gemma-3-12b-it";
    "models/gemma-3-4b-it";
    "models/gemini-2.0-flash";
    "models/gemini-flash-latest" ].

Definition default_model : string := "models/gemini-1.5-flash".

(** [for p in priority_models: if p in available_models: target_model = p; break] *)
Fixpoint priority_loop (ps available_models : list string)
  (target_model : option string) : option string :=
  match ps with
  | [] => target_model
  | p :: ps' =>
      if bool_decide (p ∈ available_models) then Some p
      else priority_loop ps' available_models target_model
  end.

(** [for m in available_models: if 'gemma' in m and '-it' in m: target_model = m; break] *)
Fixpoint gemma_loop (ms : list string) (target_model : option string)
  : option string :=
  match ms with
  | [] => target_model
  | m :: ms' =>
      if Str.contains "gemma" m && Str.contains "-it" m then Some m
      else gemma_loop ms' target_model
  end.

(** Lines 61 to 75: the value of [target_model] when the selection ends. *)
Definition select_model (available_models : list string) : option string :=
  let target_model := None in
  let target_model := priority_loop priority_models available_models target_model in
  let target_model :=
    if negb (truthy_opt target_model)
    then gemma_loop available_models target_model
    else target_model in
  let target_model :=
    if negb (truthy_opt target_model)
    then Some (match available_models with
               | m :: _ => m
               | [] => default_model
               end)
    else target_model in
  target_model.

Definition initial_state : state :=
  {| model := None; TARGET_MODEL_NAME := EmptyString; conversations := ∅ |}.

(** Lines 40 to 84.  An exception anywhere in the [try] block leaves the
    globals as they are at that point.  The selection always ends with a
    name ([select_model_spec]), so its [None] case is never taken. *)
Definition bootstrap (w : startup) : state :=
  let GOOGLE_API_KEY := py_or (env_GOOGLE_API_KEY w) (env_GEMINI_API_KEY w) in
  match GOOGLE_API_KEY with
  | Some key =>
      if Str.truthy key then
        match configure w key with
        | Raise _ => initial_state
        | Return _ =>
            match list_models w with
            | Raise _ => initial_state
            | Return available_models =>
                match select_model available_models with
                | None => initial_state
                | Some target_model =>
                    match new_model w target_model with
                    | Raise _ =>
                        {| model := None;
                           TARGET_MODEL_NAME := target_model;
                           conversations := ∅ |}
                    | Return _ =>
                        {| model := Some {| model_name := target_model |};
                           TARGET_MODEL_NAME := target_model;
                           conversations := ∅ |}
                    end
                end
            end
        end
      else initial_state
  | None => initial_state
  end.

(** ** The history *)

(** [l[-n:]] for a positive [n]. *)
Definition last_n {A : Type} (n : nat) (l : list A) : list A :=
  drop (length l - n) l.

Definition manage_history (session_id : string) (new_message : message)
  (conversations : gmap string (list message)) : gmap string (list message) :=
  let conversations :=
    match conversations !! session_id with
    | None => <[session_id := []]> conversations
    | Some _ => conversations
    end in
  let conversations :=
    <[session_id := default [] (conversations !! session_id) ++ [new_message]]>
      conversations in
  if 20 <? length (default [] (conversations !! session_id))
  then <[session_id := last_n 20 (default [] (conversations !! session_id))]>
         conversations
  else conversations.

(** ** Rendering a value inside an f-string *)

Definition hex_digit (n : nat) : ascii :=
  if n <? 10 then ascii_of_nat (48 + n) else ascii_of_nat (87 + n).

Definition repr_char (quote c : ascii) : string :=
  let n := nat_of_ascii c in
  if Ascii.eqb c "\" then "\\"
  else if Ascii.eqb c quote then String "\" (String c EmptyString)
  else if Ascii.eqb c "010" then "\n"
  else if Ascii.eqb c "013" then "\r"
  else if Ascii.eqb c "009" then "\t"
  else if (n <? 32) || (n =? 127)
  then String "\" (String "x" (String (hex_digit (n / 16))
                                 (String (hex_digit (n mod 16)) EmptyString)))
  else String c EmptyString.

Fixpoint repr_chars (quote : ascii) (s : string) : string :=
  match s with
  | EmptyString => EmptyString
  | String c s' => repr_char quote c +:+ repr_chars quote s'
  end.

(** [repr(s)] of a [str]: single quotes, unless the text holds a single
    quote and no double quote. *)
Definition repr_str (s : string) : string :=
  let quote : ascii :=
    if Str.contains "'" s && negb (Str.contains Str.dquote s)
    then "034"%char else "'"%char in
  String quote (repr_chars quote s) +:+ String quote EmptyString.

(** [repr(v)] of a decoded value. *)
Fixpoint py_repr (v : json) : string :=
  match v with
  | JNull => "None"
  | JBool true => "True"
  | JBool false => "False"
  | JNum l => l
  | JStr s => repr_str s
  | JArr items => "[" +:+ Str.join ", " (map py_repr items) +:+ "]"
  | JObj fields =>
      "{" +:+ Str.join ", "
                (map (fun kv => repr_str (fst kv) +:+ ": " +:+ py_repr (snd kv))
                   fields) +:+ "}"
  end.

(** [str(v)], which is what [f"{v}"] inserts. *)
Definition py_str (v : json) : string :=
  match v with
  | JStr s => s
  | _ => py_repr v
  end.

(** ** The chat endpoint *)

(** What the outside world answers during one request: the text of the
    identifier [uuid.uuid4()] draws when it is asked for one, and what
    [model.generate_content(prompt, generation_config=...)] followed by
    [response.text] gives for a model, a prompt and a configuration. *)
Record world : Type := {
  uuid4 : string;
  generate_content :
    GenerativeModel -> string -> list (string * string) -> result string
}.

(** One call made to the provider. *)
Record call : Type := Call {
  call_model : GenerativeModel;
  call_prompt : string;
  call_config : list (string * string)
}.

(** What the client receives: status 200 with a body, or status 500 when
    the response model rejects a field ([ai_reply] must be a [str],
    [grammar_correction] a [str] or [None]). *)
Inductive http_result : Type :=
  | OK (body : ChatResponse.t)
  | InternalServerError.

Definition ChatResponse_validate (ai_reply grammar_correction : json)
  (session_id : string) : http_result :=
  match ai_reply, grammar_correction with
  | JStr a, JStr g => OK (ChatResponse.new a (Some g) session_id)
  | JStr a, JNull => OK (ChatResponse.new a None session_id)
  | _, _ => InternalServerError
  end.

(** [l[0]] and [l[-1]] *)
Definition py_first {A : Type} (l : list A) : result A :=
  match head l with
  | Some x => Return x
  | None => Raise (IndexError "list index out of range")
  end.
Definition py_last {A : Type} (l : list A) : result A :=
  match last l with
  | Some x => Return x
  | None => Raise (IndexError "list index out of range")
  end.

(** [INTERVIEW_PROMPT if mode == "interview" else CHAT_PROMPT] *)
Definition system_prompt (mode : string) : string :=
  if String.eqb mode "interview" then INTERVIEW_PROMPT else CHAT_PROMPT.

(** [f"{msg['role'].upper()}: {msg['parts'][0]}"] *)
Definition render_message (msg : message) : result string :=
  p ← py_first (parts msg);
  Return (Str.upper (role msg) +:+ ": " +:+ py_str p).

Fixpoint render_all (msgs : list message) : result (list string) :=
  match msgs with
  | [] => Return []
  | msg :: msgs' =>
      x ← render_message msg;
      xs ← render_all msgs';
      Return (x :: xs)
  end.

(** Lines 165 and 166. *)
Definition full_prompt (mode session_id : string)
  (conversations : gmap string (list message)) : result string :=
  match conversations !! session_id with
  | None => Raise (KeyError (repr_str session_id))
  | Some history =>
      lines ← render_all history;
      Return (system_prompt mode +:+ Str.newline +:+ Str.newline
              +:+ "Conversation History:" +:+ Str.newline
              +:+ Str.join Str.newline lines
              +:+ Str.newline +:+ Str.newline
              +:+ "Respond ONLY in valid JSON format.")
  end.

(** Lines 169 to 171. *)
Definition gen_config (target_model_name : string) : list (string * string) :=
  if Str.contains "gemini" (Str.lower target_model_name)
  then [("response_mime_type", "application/json")]
  else [].

(** Lines 177 to 183: the text handed to the decoder. *)
Definition extract_json (response_text : string) : result string :=
  let text := Str.strip response_text in
  if Str.contains "```json" text then
    a ← py_last (Str.split "```json" text);
    b ← py_first (Str.split "```" a);
    Return (Str.strip b)
  else if Str.contains "```" text then
    a ← py_last (Str.split "```" text);
    b ← py_first (Str.split "```" a);
    Return (Str.strip b)
  else Return text.

Definition default_reply : string := "I'm sorry, I didn't catch that.".

(** Lines 177 to 187. *)
Definition read_reply (response_text : string) : result (json * json) :=
  text ← extract_json response_text;
  data ← json_loads text;
  ai_reply ← py_get data "ai_reply" (JStr default_reply);
  grammar_correction ← py_get data "grammar_correction" JNull;
  Return (ai_reply, grammar_correction).

Definition error_reply (e : exn) : string :=
  "I'm having trouble connecting to my brain right now. Error details: "
  +:+ str_exn e.

Definition mock_reply (mode user_text : string) : string :=
  "[" +:+ Str.upper mode +:+ " MODE] I heard you say: '" +:+ user_text
  +:+ "'. (MockAI Mode)".

Definition mock_feedback (mode : string) : json :=
  if String.eqb mode "interview" then JStr "Mock feedback: Good effort!"
  else JNull.

(** The body of the [try] block, lines 162 to 187: the calls made to the
    provider and the two values read, or the exception raised. *)
Definition try_block (m : GenerativeModel) (target_model_name : string)
  (w : world) (mode session_id : string)
  (conversations : gmap string (list message))
  : list call * result (json * json) :=
  match full_prompt mode session_id conversations with
  | Raise e => ([], Raise e)
  | Return prompt =>
      let config := gen_config target_model_name in
      ([Call m prompt config],
       response_text ← generate_content w m prompt config;
       read_reply response_text)
  end.

(** [request.session_id or str(uuid.uuid4())] *)
Definition resolve_session_id (request : ChatRequest.t) (w : world) : string :=
  Str.or_else (ChatRequest.session_id request) (uuid4 w).

(** [request.mode or "chat"] *)
Definition resolve_mode (request : ChatRequest.t) : string :=
  Str.or_else (ChatRequest.mode request) "chat".

(** Lines 157 to 196: the provider calls and the values of [ai_reply] and
    [grammar_correction] once the branch on [model] is over. *)
Definition answer (st : state) (w : world) (mode session_id user_text : string)
  (conversations : gmap string (list message)) : list call * json * json :=
  match model st with
  | Some m =>
      match try_block m (TARGET_MODEL_NAME st) w mode session_id conversations with
      | (calls, Return (ai_reply, grammar_correction)) =>
          (calls, ai_reply, grammar_correction)
      | (calls, Raise e) => (calls, JStr (error_reply e), JNull)
      end
  | None => ([], JStr (mock_reply mode user_text), mock_feedback mode)
  end.

(** The handler of [POST /chat]: the new globals, the calls made to the
    provider, and what the client receives. *)
Definition chat_endpoint (st : state) (w : world) (request : ChatRequest.t)
  : state * list call * http_result :=
  let session_id := resolve_session_id request w in
  let user_text := ChatRequest.user_message request in
  let mode := resolve_mode request in
  let conversations :=
    manage_history session_id (Message "user" [JStr user_text])
      (conversations st) in
  let '(calls, ai_reply, grammar_correction) :=
    answer st w mode session_id user_text conversations in
  let conversations :=
    manage_history session_id (Message "model" [ai_reply]) conversations in
  ({| model := model st;
      TARGET_MODEL_NAME := TARGET_MODEL_NAME st;
      conversations := conversations |},
   calls,
   ChatResponse_validate ai_reply grammar_correction session_id).

(** A run of the server: the requests handled one after the other, each
    with what the world answers during it. *)
Definition step (st : state) (ev : world * ChatRequest.t) : state :=
  (chat_endpoint st ev.1 ev.2).1.1.

Definition run (st : state) (evs : list (world * ChatRequest.t)) : state :=
  foldl step st evs.

(** The history stored for a session; an unknown session has none. *)
Definition history (st : state) (session_id : string) : list message :=
  default [] (conversations st !! session_id).

(** *** The identifiers of a process

    [uuid.uuid4()] is modelled by what it is used for: a source of
    identifiers that never hands out the same one twice (the chance that
    two random draws of 122 bits coincide is neglected).  The source is
    asked only when the request carries no session id, or an empty one:
    [or] does not evaluate its right operand otherwise. *)
Record uuid_source : Type := {
  nth_uuid : nat -> string;
  nth_uuid_fresh : forall i j : nat, nth_uuid i = nth_uuid j -> i = j
}.

(** The behaviour of the provider during one request. *)
Definition provider : Type :=
  GenerativeModel -> string -> list (string * string) -> result string.

(** The request makes the handler call [uuid.uuid4()]. *)
Definition asks_uuid (request : ChatRequest.t) : bool :=
  negb (truthy_opt (ChatRequest.session_id request)).

(** What the requests of a process see, one after the other, when [n]
    identifiers have been handed out before the first of them. *)
Fixpoint worlds (src : uuid_source) (n : nat)
  (reqs : list (provider * ChatRequest.t)) : list (world * ChatRequest.t) :=
  match reqs with
  | [] => []
  | (p, request) :: reqs' =>
      ({| uuid4 := nth_uuid src n; generate_content := p |}, request)
      :: worlds src (if asks_uuid request then S n else n) reqs'
  end.

(** What the clients receive during a run, in the order of the
    requests. *)
Fixpoint responses (st : state) (evs : list (world * ChatRequest.t))
  : list http_result :=
  match evs with
  | [] => []
  | ev :: evs' =>
      (chat_endpoint st ev.1 ev.2).2 :: responses (step st ev) evs'
  end.

(** ** Notions of the specification *)

(** [sub] occurs in [s]. *)
Definition occurs (sub s : string) : Prop :=
  exists pre suf, s = pre +:+ sub +:+ suf.

(** The twenty-six letters, each in lower case and in upper case. *)
Definition letters : list (ascii * ascii) :=
  Eval vm_compute in
    zip (list_ascii_of_string "abcdefghijklmnopqrstuvwxyz")
        (list_ascii_of_string "ABCDEFGHIJKLMNOPQRSTUVWXYZ").

(** A text of the ASCII range.  On such a text the case mappings of a
    [str] move the twenty-six letters and nothing else; the statements
    that speak of case are made for such texts. *)
Definition isascii (s : string) : bool :=
  forallb (fun c => nat_of_ascii c <? 128) (list_ascii_of_string s).

(** A character in upper case, read off the table of letters. *)
Definition upper_letter (c : ascii) : ascii :=
  match find (fun l => Ascii.eqb (fst l) c) letters with
  | Some l => snd l
  | None => c
  end.

(** A text in upper case, letter by letter. *)
Fixpoint uppercased (s : string) : string :=
  match s with
  | EmptyString => EmptyString
  | String c s' => String (upper_letter c) (uppercased s')
  end.

(** Two characters that are the same letter when case is ignored: the
    same character, or the two cases of one letter of the table. *)
Definition same_letter (a b : ascii) : Prop :=
  a = b \/ In (a, b) letters \/ In (b, a) letters.

Inductive same_text : string -> string -> Prop :=
  | same_text_nil : same_text EmptyString EmptyString
  | same_text_cons a b s t :
      same_letter a b -> same_text s t -> same_text (String a s) (String b t).

(** The identifier belongs to the gemini naming family: some part of it
    reads [gemini] when case is ignored. *)
Definition gemini_family (name : string) : Prop :=
  exists pre mid suf, name = pre +:+ mid +:+ suf /\ same_text mid "gemini".

(** The selection as the specification words it: the first candidate of
    the priority list that is available, else the first available model
    with both fragments in its name, else the first available model, else
    the default identifier. *)
Definition select_spec (available : list string) : string :=
  match find (fun p => bool_decide (p ∈ available)) priority_models with
  | Some p => p
  | None =>
      match find (fun m => Str.contains "gemma" m && Str.contains "-it" m)
              available with
      | Some m => m
      | None =>
          match available with
          | m :: _ => m
          | [] => default_model
          end
      end
  end.

(** The provider handle as the specification words it: unset without a
    credential or after any failure, else a handle on the selected
    model. *)
Definition handle_spec (w : startup) : option GenerativeModel :=
  match py_or (env_GOOGLE_API_KEY w) (env_GEMINI_API_KEY w) with
  | Some (String c key) =>
      match configure w (String c key), list_models w with
      | Return _, Return available =>
          match new_model w (select_spec available) with
          | Return _ => Some {| model_name := select_spec available |}
          | Raise _ => None
          end
      | _, _ => None
      end
  | _ => None
  end.

(** The history of the session once the user turn is in. *)
Definition with_user_turn (st : state) (w : world) (request : ChatRequest.t)
  : gmap string (list message) :=
  manage_history (resolve_session_id request w)
    (Message "user" [JStr (ChatRequest.user_message request)])
    (conversations st).

(** The provider calls and the two values a request ends with. *)
Definition answered (st : state) (w : world) (request : ChatRequest.t)
  : list call * json * json :=
  answer st w (resolve_mode request) (resolve_session_id request w)
    (ChatRequest.user_message request) (with_user_turn st w request).

(** The two turns a request adds and the session they go to. *)
Definition exchange (st : state) (w : world) (request : ChatRequest.t)
  : string * list message :=
  (resolve_session_id request w,
   [Message "user" [JStr (ChatRequest.user_message request)];
    Message "model" [(answered st w request).1.2]]).

(** Every turn added to a session during a run, oldest first. *)
Fixpoint log (st : state) (evs : list (world * ChatRequest.t))
  (session_id : string) : list message :=
  match evs with
  | [] => []
  | ev :: evs' =>
      (if String.eqb (exchange st ev.1 ev.2).1 session_id
       then (exchange st ev.1 ev.2).2 else [])
      ++ log (step st ev) evs' session_id
  end.

(** What the provider answered during a request, when it was called. *)
Definition provider_answer (st : state) (w : world) (request : ChatRequest.t)
  : option (result string) :=
  match model st with
  | None => None
  | Some m =>
      match full_prompt (resolve_mode request) (resolve_session_id request w)
              (with_user_turn st w request) with
      | Raise _ => None
      | Return prompt =>
          Some (generate_content w m prompt (gen_config (TARGET_MODEL_NAME st)))
      end
  end.

(** The provider failed during a request with exception [e]: its call
    raised [e], or decoding its text as JSON did. *)
Definition provider_failure (st : state) (w : world) (request : ChatRequest.t)
  (e : exn) : Prop :=
  provider_answer st w request = Some (Raise e)
  \/ exists text,
       provider_answer st w request = Some (Return text)
       /\ (extract_json text ≫= json_loads) = Raise e.

(** A JSON text written with single quotes in place of double quotes. *)
Definition json_text (s : string) : string :=
  Str.map_chars (fun c => if Ascii.eqb c "'" then "034"%char else c) s.

(** A field that fits [Optional[str]]: absent, null or a string. *)
Definition optional_str (v : option json) : Prop :=
  match v with
  | None | Some JNull | Some (JStr _) => True
  | Some _ => False
  end.

(** A field that fits a [str] with a default: absent or a string. *)
Definition defaulted_str (v : option json) : Prop :=
  match v with
  | None | Some (JStr _) => True
  | Some _ => False
  end.

(** Every stored turn has its text: the list under [parts] is not
    empty. *)
Definition well_formed (conversations : gmap string (list message)) : Prop :=
  forall session_id h,
    conversations !! session_id = Some h ->
    Forall (fun msg => parts msg <> []) h.

(** The number of requests of a list that make the handler ask for an
    identifier. *)
Fixpoint asked (reqs : list (provider * ChatRequest.t)) : nat :=
  match reqs with
  | [] => 0
  | ev :: reqs' => (if asks_uuid ev.2 then 1 else 0) + asked reqs'
  end.



(** A history made of exchanges: a user turn, then a model turn, and so
    on. *)
Inductive exchanges : list message -> Prop :=
  | exchanges_nil : exchanges []
  | exchanges_cons u m h :
      role u = "user" -> role m = "model" -> exchanges h ->
      exchanges (u :: m :: h).

(** ** The model-listing utility *)

(** The script [check_models.py]. *)
Module CheckModels.

(** One entry of [genai.list_models()]. *)
Record Model : Type := {
  name : string;
  supported_generation_methods : list string
}.

(** What the script finds around it: the environment variable, the
    behaviour of [genai.configure], and the enumeration, given by the
    models it yields and the exception that ends it, if any. *)
Record world : Type := {
  env_GOOGLE_API_KEY : option string;
  configure : string -> result unit;
  list_models : list Model * option exn
}.

(** Lines 14 to 16: the lines printed while the models come. *)
Fixpoint loop (ms : list Model) (printed : list string) : list string :=
  match ms with
  | [] => printed
  | m :: ms' =>
      loop ms'
        (if bool_decide ("generateContent" ∈ supported_generation_methods m)
         then printed ++ [name m]
         else printed)
  end.

(** The whole script: the lines printed, and the exception that ends the
    process when one is raised (nothing catches it). *)
Definition main (w : world) : list string * option exn :=
  let GOOGLE_API_KEY := env_GOOGLE_API_KEY w in
  match GOOGLE_API_KEY with
  | Some (String c key) =>
      match configure w (String c key) with
      | Raise e => ([], Some e)
      | Return _ =>
          (loop (list_models w).1 ["List of available models:"],
           (list_models w).2)
      end
  | _ => (["No API Key found"], None)
  end.

End CheckModels.

(** ** Sample inputs *)

(** A startup with a credential and a provider that lists [available]. *)
Definition sample_startup (available : list string) : startup :=
  {| env_GOOGLE_API_KEY := Some "key";
     env_GEMINI_API_KEY := None;
     configure := fun _ => Return ();
     list_models := Return available;
     new_model := fun _ => Return () |}.

Definition sample_uuid : string := "123e4567-e89b-42d3-a456-426614174000".

(** A world whose provider answers [text] to every call. *)
Definition answering (text : string) : world :=
  {| uuid4 := sample_uuid;
     generate_content := fun _ _ _ => Return text |}.

(** A world whose provider raises [e] at every call. *)
Definition failing (e : exn) : world :=
  {| uuid4 := sample_uuid;
     generate_content := fun _ _ _ => Raise e |}.

Definition gemma_state : state := bootstrap (sample_startup ["models/gemma-3-27b-it"]).
Definition gemini_state : state := bootstrap (sample_startup ["models/gemini-2.0-flash"]).

Definition hello : ChatRequest.t := ChatRequest.new "Hello" None (Some "s1").

(** A request that supplies an empty session id. *)
Definition empty_id_request : ChatRequest.t :=
  ChatRequest.new "Hello" None (Some EmptyString).

(** A request with a mode outside the two documented ones. *)
Definition quiz_request : ChatRequest.t :=
  ChatRequest.new "Hello" (Some "quiz") (Some "s1").

(** The prompt sent for [hello] from a state with a handle. *)
Definition call_prompt_of_hello (st : state) : string :=
  match full_prompt (resolve_mode hello)
          (resolve_session_id hello (answering "{}"))
          (with_user_turn st (answering "{}") hello) with
  | Return prompt => prompt
  | Raise _ => EmptyString
  end.

(** The first example of the specification: the object in a fenced JSON
    block. *)
Definition hi_object : string :=
  json_text "{'ai_reply':'hi','grammar_correction':null}".
Definition fenced_hi : string :=
  "```json" +:+ (Str.newline +:+ hi_object +:+ Str.newline) +:+ "```".

(** The second example: plain JSON. *)
Definition plain_ok : string :=
  json_text "{'ai_reply':'ok','grammar_correction':'fix x'}".

(** The same object as [hi_object] in a fenced block without the [json]
    tag. *)
Definition plain_fenced_hi : string :=
  "```" +:+ Str.newline +:+ hi_object +:+ Str.newline +:+ "```".

(** A valid two-field object whose reply quotes code between triple
    backquotes. *)
Definition code_reply : string :=
  json_text "{'ai_reply':'Use ```print()``` here','grammar_correction':null}".

(** Ten requests on the session of [hello], each answered with an empty
    object. *)
Definition ten_requests : list (world * ChatRequest.t) :=
  replicate 10 (answering "{}", hello).

(** A provider object whose reply is null. *)
Definition null_reply : string :=
  json_text "{'ai_reply':null,'grammar_correction':null}".

(** An enumeration of three models that ends well. *)
Definition three_models : list CheckModels.Model * option exn :=
  ([ {| CheckModels.name := "models/embedding-001";
        CheckModels.supported_generation_methods := ["embedContent"] |};
     {| CheckModels.name := "models/gemini-2.0-flash";
        CheckModels.supported_generation_methods :=
          ["generateContent"; "countTokens"] |};
     {| CheckModels.name := "models/gemma-3-4b-it";
        CheckModels.supported_generation_methods := ["generateContent"] |} ],
   None).

(** A machine where only [GEMINI_API_KEY] is set, as the server and as the
    script see it. *)
Definition gemini_key_only (available : list string) : startup :=
  {| env_GOOGLE_API_KEY := None;
     env_GEMINI_API_KEY := Some "key";
     configure := fun _ => Return ();
     list_models := Return available;
     new_model := fun _ => Return () |}.

(** A startup where the provider lists [available] and building the
    handle raises. *)
Definition failing_constructor (available : list string) : startup :=
  {| env_GOOGLE_API_KEY := Some "key";
     env_GEMINI_API_KEY := None;
     configure := fun _ => Return ();
     list_models := Return available;
     new_model := fun _ => Raise (ProviderError "invalid model name") |}.

(** What the script finds with [key] as [GOOGLE_API_KEY] and a provider
    that lists [three_models]. *)
Definition script_world (key : option string) : CheckModels.world :=
  {| CheckModels.env_GOOGLE_API_KEY := key;
     CheckModels.configure := fun _ => Return ();
     CheckModels.list_models := three_models |}.

(** A request in interview mode. *)
Definition interview_request : ChatRequest.t :=
  ChatRequest.new "I am ready" (Some "interview") (Some "s1").

(** A provider that lists one model whose name is written in mixed
    case. *)
Definition mixed_case_state : state :=
  bootstrap (sample_startup ["models/GeMiNi-Pro"]).

(** A source that numbers its identifiers. *)
Definition counting_source : uuid_source :=
  {| nth_uuid := fun n => "session-" +:+ pretty n;
     nth_uuid_fresh := fun i j H =>
       pretty_nat_inj i j (f_equal (Str.skip 8) H) |}.

(** A provider that answers [text] to every call. *)
Definition always (text : string) : provider := fun _ _ _ => Return text.

(** A request without a session id. *)
Definition no_id_request : ChatRequest.t := ChatRequest.new "Hello" None None.

(** ** The bounded history *)

Section History.
Context {A : Type}.
Implicit Types l k : list A.

Lemma last_n_length n l : length (last_n n l) = min n (length l).
Proof. unfold last_n. rewrite length_drop. lia. Qed.

Lemma last_n_short n l : length l <= n -> last_n n l = l.
Proof.
  intros H. unfold last_n.
  replace (length l - n) with 0 by lia. reflexivity.
Qed.

Lemma last_n_suffix n l : last_n n l `suffix_of` l.
Proof. apply suffix_drop. Qed.

Lemma last_n_app n l k : last_n n (last_n n l ++ k) = last_n n (l ++ k).
Proof.
  destruct (decide (length l <= n)) as [Hle|Hgt].
  - by rewrite (last_n_short n l).
  - unfold last_n at 1 3.
    rewrite !length_app, last_n_length.
    unfold last_n.
    rewrite <- (drop_app_le l k (length l - n)) by lia.
    rewrite drop_drop. f_equal. lia.
Qed.

Lemma last_n_idemp n l : last_n n (last_n n l) = last_n n l.
Proof. apply last_n_short. rewrite last_n_length. lia. Qed.
End History.

Lemma manage_history_lookup sid msg (c : gmap string (list message)) :
  manage_history sid msg c !! sid
  = Some (last_n 20 (default [] (c !! sid) ++ [msg])).
Proof.
  unfold manage_history.
  destruct (c !! sid) as [h|] eqn:Hc; simpl.
  - rewrite Hc. simpl. rewrite lookup_insert_eq. simpl.
    destruct (20 <? length (h ++ [msg])) eqn:Hlen.
    + by rewrite lookup_insert_eq.
    + rewrite lookup_insert_eq. apply Nat.ltb_ge in Hlen.
      by rewrite last_n_short.
  - rewrite !lookup_insert_eq. simpl. by rewrite lookup_insert_eq.
Qed.

Lemma manage_history_other sid sid' msg (c : gmap string (list message)) :
  sid <> sid' -> manage_history sid msg c !! sid' = c !! sid'.
Proof.
  intros Hne. unfold manage_history.
  destruct (c !! sid) as [h|] eqn:Hc; simpl;
    repeat (case_match; simpl); by rewrite ?lookup_insert_ne.
Qed.

Lemma chat_endpoint_unfold st w request :
  chat_endpoint st w request
  = ({| model := model st;
        TARGET_MODEL_NAME := TARGET_MODEL_NAME st;
        conversations :=
          manage_history (resolve_session_id request w)
            (Message "model" [(answered st w request).1.2])
            (with_user_turn st w request) |},
     (answered st w request).1.1,
     ChatResponse_validate (answered st w request).1.2 (answered st w request).2
       (resolve_session_id request w)).
Proof.
  unfold chat_endpoint, answered, with_user_turn.
  by destruct (answer _ _ _ _ _ _) as [[calls a] g].
Qed.

Lemma history_step_same st w request :
  history (chat_endpoint st w request).1.1 (exchange st w request).1
  = last_n 20 (history st (exchange st w request).1 ++ (exchange st w request).2).
Proof.
  unfold history. rewrite chat_endpoint_unfold. simpl.
  unfold with_user_turn. rewrite !manage_history_lookup. simpl.
  rewrite last_n_app. by rewrite <- app_assoc.
Qed.

Lemma history_step_other st w request sid :
  (exchange st w request).1 <> sid ->
  history (chat_endpoint st w request).1.1 sid = history st sid.
Proof.
  intros Hne. unfold history. rewrite chat_endpoint_unfold. simpl.
  unfold with_user_turn. by rewrite !manage_history_other by done.
Qed.

Lemma history_run st evs sid :
  length (history st sid) <= 20 ->
  history (run st evs) sid = last_n 20 (history st sid ++ log st evs sid).
Proof.
  revert st. induction evs as [|[w request] evs IH]; intros st Hlen.
  - cbn. by rewrite app_nil_r, last_n_short.
  - change (run st ((w, request) :: evs))
      with (run (chat_endpoint st w request).1.1 evs).
    change (log st ((w, request) :: evs) sid)
      with ((if String.eqb (exchange st w request).1 sid
             then (exchange st w request).2 else [])
            ++ log (chat_endpoint st w request).1.1 evs sid).
    destruct (String.eqb_spec (exchange st w request).1 sid) as [<-|Hne].
    + rewrite IH.
      * rewrite history_step_same, last_n_app. by rewrite <- app_assoc.
      * rewrite history_step_same, last_n_length. lia.
    + rewrite IH; by rewrite history_step_other.
Qed.

Lemma bootstrap_conversations w : conversations (bootstrap w) = ∅.
Proof.
  unfold bootstrap. repeat (case_match; simpl); reflexivity.
Qed.

(** ** Facts about strings *)

Module StrFacts.

Lemma app_nil_l (a : string) : EmptyString +:+ a = a.
Proof. reflexivity. Qed.

Lemma app_cons (x : ascii) (a b : string) :
  String x a +:+ b = String x (a +:+ b).
Proof. reflexivity. Qed.

Lemma app_assoc (a b c : string) : (a +:+ b) +:+ c = a +:+ b +:+ c.
Proof.
  induction a as [|x a IH]; [done|]. by rewrite !app_cons, IH.
Qed.

Lemma app_nil_r (a : string) : a +:+ EmptyString = a.
Proof. induction a as [|x a IH]; [done|]. by rewrite app_cons, IH. Qed.

Lemma app_length (a b : string) :
  String.length (a +:+ b) = String.length a + String.length b.
Proof.
  induction a as [|x a IH]; [done|]. rewrite app_cons. simpl. by rewrite IH.
Qed.

Lemma occurs_refl (s : string) : occurs s s.
Proof. exists EmptyString, EmptyString. by rewrite app_nil_r. Qed.

Lemma occurs_app_l (sub a b : string) : occurs sub a -> occurs sub (a +:+ b).
Proof.
  intros (pre & suf & ->). exists pre, (suf +:+ b).
  by rewrite !app_assoc.
Qed.

Lemma occurs_app_r (sub a b : string) : occurs sub b -> occurs sub (a +:+ b).
Proof.
  intros (pre & suf & ->). exists (a +:+ pre), suf.
  by rewrite !app_assoc.
Qed.

Lemma starts_with_app (p r : string) : Str.starts_with p (p +:+ r) = true.
Proof.
  induction p as [|x p IH]; [done|].
  rewrite app_cons. simpl. by rewrite Ascii.eqb_refl, IH.
Qed.

Lemma starts_with_inv (p s : string) :
  Str.starts_with p s = true -> exists r, s = p +:+ r.
Proof.
  revert s. induction p as [|x p IH]; intros s H; simpl in *.
  - by exists s.
  - destruct s as [|y s]; [done|].
    apply andb_prop in H as [Hxy Hp].
    apply Ascii.eqb_eq in Hxy as ->.
    destruct (IH _ Hp) as [r ->]. by exists r.
Qed.

(** [sub in s] decides that [sub] occurs in [s]. *)
Lemma contains_occurs (sub s : string) :
  Str.contains sub s = true <-> occurs sub s.
Proof.
  split.
  - induction s as [|c s IH]; simpl.
    + destruct (Str.starts_with sub EmptyString) eqn:Hp; [|done].
      intros _. apply starts_with_inv in Hp as [r Hr].
      exists EmptyString, r. done.
    + destruct (Str.starts_with sub (String c s)) eqn:Hp.
      * intros _. apply starts_with_inv in Hp as [r Hr].
        exists EmptyString, r. done.
      * intros H. destruct (IH H) as (pre & suf & ->).
        by exists (String c pre), suf.
  - intros (pre & suf & ->).
    induction pre as [|c pre IH].
    + rewrite app_nil_l.
      destruct (sub +:+ suf) eqn:E; simpl; rewrite <- E, starts_with_app; done.
    + rewrite app_cons. simpl. rewrite IH. by destruct (Str.starts_with _ _).
Qed.

End StrFacts.

(** ** The shape of a handled request *)

Lemma chat_endpoint_model st w request :
  model (chat_endpoint st w request).1.1 = model st.
Proof. by rewrite chat_endpoint_unfold. Qed.

Lemma chat_endpoint_target st w request :
  TARGET_MODEL_NAME (chat_endpoint st w request).1.1 = TARGET_MODEL_NAME st.
Proof. by rewrite chat_endpoint_unfold. Qed.

Lemma run_cons st w request evs :
  run st ((w, request) :: evs) = run (chat_endpoint st w request).1.1 evs.
Proof. reflexivity. Qed.

Lemma run_model st evs : model (run st evs) = model st.
Proof.
  revert st. induction evs as [|[w request] evs IH]; intros st; [done|].
  by rewrite run_cons, IH, chat_endpoint_model.
Qed.

Lemma run_target st evs : TARGET_MODEL_NAME (run st evs) = TARGET_MODEL_NAME st.
Proof.
  revert st. induction evs as [|[w request] evs IH]; intros st; [done|].
  by rewrite run_cons, IH, chat_endpoint_target.
Qed.

(** Without a provider handle the answer is the placeholder. *)
Lemma answered_mock st w request :
  model st = None ->
  answered st w request
  = ([], JStr (mock_reply (resolve_mode request)
                 (ChatRequest.user_message request)),
     mock_feedback (resolve_mode request)).
Proof. intros H. unfold answered, answer. by rewrite H. Qed.

(** With a handle, the answer is read from what the provider said. *)
Lemma answered_provider st w request r :
  provider_answer st w request = Some r ->
  exists c,
    answered st w request
    = match r ≫= read_reply with
      | Return (a, g) => ([c], a, g)
      | Raise e => ([c], JStr (error_reply e), JNull)
      end
    /\ call_config c = gen_config (TARGET_MODEL_NAME st)
    /\ model st = Some (call_model c)
    /\ full_prompt (resolve_mode request) (resolve_session_id request w)
         (with_user_turn st w request) = Return (call_prompt c).
Proof.
  unfold provider_answer, answered, answer, try_block.
  destruct (model st) as [m|]; [|done].
  destruct (full_prompt _ _ _) as [prompt|e]; [|done].
  intros [= <-].
  exists (Call m prompt (gen_config (TARGET_MODEL_NAME st))).
  split; [|done].
  by destruct (generate_content _ _ _ _ ≫= read_reply) as [[a g]|e].
Qed.

(** When the client receives a body, the value of [ai_reply] was a [str]
    and the body carries it. *)
Lemma validate_OK a g sid body :
  ChatResponse_validate a g sid = OK body ->
  a = JStr (ChatResponse.ai_reply body)
  /\ ChatResponse.session_id body = sid
  /\ g = match ChatResponse.grammar_correction body with
         | Some t => JStr t
         | None => JNull
         end.
Proof.
  unfold ChatResponse_validate.
  destruct a; try done; destruct g; try done; by intros [= <-].
Qed.

(** C9.  Every request adds two turns to the history of its session, the
    user turn and then the model turn, whatever the branch taken (the
    statement is over every state and every answer of the world): the new
    history is the old one followed by the two turns, cut to its last 20
    entries; nothing is cut while the old history has at most 18 entries;
    the model turn carries the reply the client receives; no other session
    changes. *)
Theorem two_turns_recorded (st : state) (w : world) (request : ChatRequest.t) :
  let st' := (chat_endpoint st w request).1.1 in
  let session_id := resolve_session_id request w in
  let user_turn := Message "user" [JStr (ChatRequest.user_message request)] in
  exists reply : json,
    history st' session_id
    = last_n 20 (history st session_id ++ [user_turn; Message "model" [reply]])
    /\ (length (history st session_id) <= 18 ->
        history st' session_id
        = history st session_id ++ [user_turn; Message "model" [reply]])
    /\ (forall body, (chat_endpoint st w request).2 = OK body ->
        reply = JStr (ChatResponse.ai_reply body))
    /\ (forall other, other <> session_id -> history st' other = history st other).
Proof.
  cbv zeta.
  pose proof (history_step_same st w request) as Hsame.
  exists (answered st w request).1.2.
  split; [exact Hsame|]. split; [|split].
  - intros Hlen. etrans; [exact Hsame|]. apply last_n_short.
    rewrite length_app. simpl in *. lia.
  - intros body. rewrite chat_endpoint_unfold. simpl.
    intros H. by apply validate_OK in H as [-> _].
  - intros other Hne. by apply history_step_other.
Qed.

Lemma two_turns_recorded_witness :
  length (history initial_state "s1") <= 18
  /\ exists reply,
       history (chat_endpoint initial_state (answering "{}") hello).1.1 "s1"
       = [Message "user" [JStr "Hello"]; Message "model" [reply]].
Proof.
  split; [vm_compute; lia|].
  destruct (two_turns_recorded initial_state (answering "{}") hello)
    as (reply & _ & H & _).
  exists reply. apply H. vm_compute. lia.
Defined.

(** ** Provider failures *)

Lemma last_n_last {A : Type} n (l : list A) :
  0 < n -> last (last_n n l) = last l.
Proof.
  intros Hn. destruct (last_n_suffix n l) as [k Hk].
  destruct (last_n n l) as [|x r] eqn:E.
  - assert (length (last_n n l) = 0) as Hlen by by rewrite E.
    rewrite last_n_length in Hlen.
    destruct l; [done|simpl in Hlen; lia].
  - rewrite Hk. by rewrite last_app_cons.
Qed.

Lemma history_last st w request :
  last (history (chat_endpoint st w request).1.1 (resolve_session_id request w))
  = Some (Message "model" [(answered st w request).1.2]).
Proof.
  pose proof (history_step_same st w request) as H. simpl in H.
  rewrite H, last_n_last by lia.
  rewrite last_app. reflexivity.
Qed.

Lemma bind_Return {A B : Type} (a : A) (k : A -> result B) :
  Return a ≫= k = k a.
Proof. reflexivity. Qed.

Lemma bind_Raise {A B : Type} (e : exn) (k : A -> result B) :
  Raise e ≫= k = Raise e.
Proof. reflexivity. Qed.

Lemma read_reply_raise text e :
  extract_json text ≫= json_loads = Raise e -> read_reply text = Raise e.
Proof.
  unfold read_reply.
  destruct (extract_json text) as [t|e']; rewrite ?bind_Return, ?bind_Raise.
  - intros H. by rewrite H, bind_Raise.
  - by intros [= ->].
Qed.

Lemma answered_failure st w request e :
  provider_failure st w request e ->
  (answered st w request).1.2 = JStr (error_reply e)
  /\ (answered st w request).2 = JNull.
Proof.
  intros [H|(text & H & Hd)]; apply answered_provider in H as (c & -> & _).
  - done.
  - by rewrite bind_Return, (read_reply_raise _ _ Hd).
Qed.

(** C3.  When the call to the provider raises, or decoding its text as
    JSON raises, the client still receives status 200; the reply is the
    fixed apology followed by the text of the exception, so it is not
    empty and holds that text; the feedback is null; and the last entry
    of the session history is the model turn with that same reply. *)
Theorem provider_failure_reported (st : state) (w : world)
  (request : ChatRequest.t) (e : exn) :
  provider_failure st w request e ->
  exists body,
    (chat_endpoint st w request).2 = OK body
    /\ ChatResponse.ai_reply body
       = "I'm having trouble connecting to my brain right now. Error details: "
         +:+ str_exn e
    /\ ChatResponse.ai_reply body <> EmptyString
    /\ occurs (str_exn e) (ChatResponse.ai_reply body)
    /\ ChatResponse.grammar_correction body = None
    /\ last (history (chat_endpoint st w request).1.1
               (resolve_session_id request w))
       = Some (Message "model" [JStr (ChatResponse.ai_reply body)]).
Proof.
  intros Hf. destruct (answered_failure _ _ _ _ Hf) as [Ha Hg].
  rewrite history_last, chat_endpoint_unfold. simpl. rewrite Ha, Hg. simpl.
  eexists. split; [reflexivity|]. simpl.
  repeat split; try done.
  apply StrFacts.occurs_app_r, StrFacts.occurs_refl.
Qed.

Lemma provider_failure_reported_witness :
  provider_failure gemma_state (failing (ProviderError "quota exceeded")) hello
    (ProviderError "quota exceeded")
  /\ (exists body,
        (chat_endpoint gemma_state (failing (ProviderError "quota exceeded"))
           hello).2 = OK body
        /\ occurs "quota exceeded" (ChatResponse.ai_reply body))
  /\ provider_failure gemma_state (answering "Sure, here it is") hello
       (JSONDecodeError "Expecting value")
  /\ (exists body,
        (chat_endpoint gemma_state (answering "Sure, here it is") hello).2
        = OK body
        /\ ChatResponse.grammar_correction body = None).
Proof.
  assert (H1 : provider_failure gemma_state
                 (failing (ProviderError "quota exceeded")) hello
                 (ProviderError "quota exceeded")).
  { left. reflexivity. }
  assert (H2 : provider_failure gemma_state (answering "Sure, here it is")
                 hello (JSONDecodeError "Expecting value")).
  { right. exists "Sure, here it is". split; vm_compute; reflexivity. }
  split; [exact H1|]. split; [|split; [exact H2|]].
  - destruct (provider_failure_reported _ _ _ _ H1)
      as (body & Hb & _ & _ & Ho & _).
    exists body. split; [exact Hb|exact Ho].
  - destruct (provider_failure_reported _ _ _ _ H2)
      as (body & Hb & _ & _ & _ & Hg & _).
    exists body. split; [exact Hb|exact Hg].
Defined.

(** ** Modes and session ids *)

Lemma chat_endpoint_mock st w request :
  model st = None ->
  (chat_endpoint st w request).2
  = ChatResponse_validate
      (JStr (mock_reply (resolve_mode request) (ChatRequest.user_message request)))
      (mock_feedback (resolve_mode request)) (resolve_session_id request w)
  /\ (chat_endpoint st w request).1.2 = [].
Proof.
  intros H. rewrite chat_endpoint_unfold. simpl.
  by rewrite answered_mock.
Qed.

Lemma resolve_mode_not_interview request :
  ChatRequest.mode request <> Some "interview" ->
  String.eqb (resolve_mode request) "interview" = false.
Proof.
  intros H. unfold resolve_mode, Str.or_else.
  destruct (ChatRequest.mode request) as [[|c m]|]; try done.
  simpl Str.truthy. cbv iota.
  apply String.eqb_neq. congruence.
Qed.

Lemma full_prompt_prefix mode sid convs prompt :
  full_prompt mode sid convs = Return prompt ->
  exists rest, prompt = system_prompt mode +:+ rest.
Proof.
  unfold full_prompt. destruct (convs !! sid) as [h|]; [|done].
  destruct (render_all h) as [lines|e]; [|done].
  rewrite bind_Return. intros [= <-]. eexists. reflexivity.
Qed.

Lemma answered_calls st w request c :
  c ∈ (answered st w request).1.1 ->
  model st = Some (call_model c)
  /\ call_config c = gen_config (TARGET_MODEL_NAME st)
  /\ full_prompt (resolve_mode request) (resolve_session_id request w)
       (with_user_turn st w request) = Return (call_prompt c).
Proof.
  unfold answered, answer, try_block.
  destruct (model st) as [m|]; simpl; [|by intros ?%elem_of_nil].
  destruct (full_prompt _ _ _) as [prompt|e].
  - destruct (generate_content _ _ _ _ ≫= read_reply) as [[a g]|e]; simpl;
      by intros ->%list_elem_of_singleton.
  - simpl. by intros ?%elem_of_nil.
Qed.

Lemma upper_char_letter (c : ascii) : Str.upper_char c = upper_letter c.
Proof. destruct c as [[] [] [] [] [] [] [] []]; reflexivity. Qed.

(** [str.upper] is the table of letters applied to every character. *)
Lemma upper_uppercased (s : string) : Str.upper s = uppercased s.
Proof.
  induction s as [|c s IH]; [done|].
  unfold Str.upper in *. simpl. by rewrite IH, upper_char_letter.
Qed.

Lemma resolve_mode_some request c m :
  ChatRequest.mode request = Some (String c m) ->
  resolve_mode request = String c m.
Proof. intros H. unfold resolve_mode. by rewrite H. Qed.

Lemma resolve_mode_default request :
  ChatRequest.mode request = None
  \/ ChatRequest.mode request = Some EmptyString ->
  resolve_mode request = "chat".
Proof. intros [H|H]; unfold resolve_mode; by rewrite H. Qed.

Lemma mock_reply_occurs mode user_text :
  occurs (Str.upper mode) (mock_reply mode user_text)
  /\ occurs user_text (mock_reply mode user_text).
Proof.
  split.
  - apply StrFacts.occurs_app_r, StrFacts.occurs_app_l, StrFacts.occurs_refl.
  - do 3 apply StrFacts.occurs_app_r.
    apply StrFacts.occurs_app_l, StrFacts.occurs_refl.
Qed.

(** C4.  Without a provider handle, every request is answered with status
    200 and no call to the provider, by a reply that holds the user
    message.  The reply and the feedback depend on the mode of the
    request: mode chat, or no mode, or an empty one, gives the text that
    starts with [CHAT MODE] and a null feedback; mode interview gives the
    text that starts with [INTERVIEW MODE] and the fixed feedback, which is
    not null; any other mode of the ASCII range gives the text built from
    the mode in upper case, read off the table of letters.  The answer is
    the same whatever the state and whatever the world, as long as the
    handle is unset: it is a function of the request. *)
Theorem mock_mode (st : state) (w : world) (request : ChatRequest.t) :
  model st = None ->
  let user_text := ChatRequest.user_message request in
  exists body,
    (chat_endpoint st w request).2 = OK body
    /\ (chat_endpoint st w request).1.2 = []
    /\ occurs user_text (ChatResponse.ai_reply body)
    /\ (ChatRequest.mode request = Some "chat" ->
        ChatResponse.ai_reply body
        = "[CHAT MODE] I heard you say: '" +:+ user_text +:+ "'. (MockAI Mode)"
        /\ ChatResponse.grammar_correction body = None)
    /\ (ChatRequest.mode request = Some "interview" ->
        ChatResponse.ai_reply body
        = "[INTERVIEW MODE] I heard you say: '" +:+ user_text
          +:+ "'. (MockAI Mode)"
        /\ ChatResponse.grammar_correction body
           = Some "Mock feedback: Good effort!"
        /\ ChatResponse.grammar_correction body <> None)
    /\ (ChatRequest.mode request = None
        \/ ChatRequest.mode request = Some EmptyString ->
        ChatResponse.ai_reply body
        = "[CHAT MODE] I heard you say: '" +:+ user_text +:+ "'. (MockAI Mode)"
        /\ ChatResponse.grammar_correction body = None)
    /\ (forall m, ChatRequest.mode request = Some m ->
        m <> EmptyString -> isascii m = true ->
        ChatResponse.ai_reply body
        = "[" +:+ uppercased m +:+ " MODE] I heard you say: '" +:+ user_text
          +:+ "'. (MockAI Mode)"
        /\ occurs (uppercased m) (ChatResponse.ai_reply body)
        /\ (m <> "interview" -> ChatResponse.grammar_correction body = None))
    /\ (forall st' w', model st' = None ->
        exists body',
          (chat_endpoint st' w' request).2 = OK body'
          /\ ChatResponse.ai_reply body' = ChatResponse.ai_reply body
          /\ ChatResponse.grammar_correction body'
             = ChatResponse.grammar_correction body).
Proof.
  intros Hm user_text.
  destruct (chat_endpoint_mock st w request Hm) as [-> ->].
  set (reply := mock_reply (resolve_mode request) user_text).
  assert (Hbody : forall st' w', model st' = None ->
            exists g,
              (chat_endpoint st' w' request).2
              = OK (ChatResponse.new reply g (resolve_session_id request w'))
              /\ mock_feedback (resolve_mode request)
                 = match g with Some t => JStr t | None => JNull end).
  { intros st' w' Hm'.
    destruct (chat_endpoint_mock st' w' request Hm') as [-> _].
    fold user_text. fold reply. unfold mock_feedback.
    destruct (String.eqb _ _); simpl; by eexists. }
  fold user_text. fold reply.
  destruct (mock_reply_occurs (resolve_mode request) user_text) as [Ho1 Ho2].
  fold reply in Ho1, Ho2.
  unfold mock_feedback.
  destruct (String.eqb_spec (resolve_mode request) "interview") as [Hi|Hi];
    simpl; (eexists; split; [reflexivity|]); simpl;
    (split; [reflexivity|]); (split; [exact Ho2|]).
  - split; [|split; [|split; [|split]]].
    + intros H. rewrite (resolve_mode_some _ _ _ H) in Hi. discriminate.
    + intros H. subst reply. rewrite Hi. done.
    + intros H. rewrite (resolve_mode_default _ H) in Hi. discriminate.
    + intros [|c m] H Hne Ha; [done|].
      pose proof (resolve_mode_some _ _ _ H) as Hr.
      subst reply. rewrite Hr in *. rewrite <- upper_uppercased.
      split; [reflexivity|]. split; [exact Ho1|]. intros Hn. by rewrite Hi in Hn.
    + intros st' w' Hm'. destruct (Hbody st' w' Hm') as (g & -> & Hg).
      unfold mock_feedback in Hg. rewrite Hi in Hg. simpl in Hg.
      eexists. split; [reflexivity|]. simpl. split; [done|].
      by destruct g; inversion Hg.
  - split; [|split; [|split; [|split]]].
    + intros H. subst reply. by rewrite (resolve_mode_some _ _ _ H).
    + intros H. by rewrite (resolve_mode_some _ _ _ H) in Hi.
    + intros H. subst reply. by rewrite (resolve_mode_default _ H).
    + intros [|c m] H Hne Ha; [done|].
      pose proof (resolve_mode_some _ _ _ H) as Hr.
      subst reply. rewrite Hr in *. rewrite <- upper_uppercased.
      split; [reflexivity|]. split; [exact Ho1|]. done.
    + intros st' w' Hm'. destruct (Hbody st' w' Hm') as (g & -> & Hg).
      unfold mock_feedback in Hg.
      destruct (String.eqb_spec (resolve_mode request) "interview"); [done|].
      eexists. split; [reflexivity|]. simpl. split; [done|].
      by destruct g; inversion Hg.
Qed.

Lemma mock_mode_witness :
  model initial_state = None
  /\ ChatRequest.mode hello = None
  /\ ChatRequest.mode interview_request = Some "interview"
  /\ ChatRequest.mode quiz_request = Some "quiz"
  /\ "quiz" <> EmptyString
  /\ isascii "quiz" = true
  /\ (exists body,
        (chat_endpoint initial_state (answering "{}") hello).2 = OK body
        /\ ChatResponse.ai_reply body
           = "[CHAT MODE] I heard you say: 'Hello'. (MockAI Mode)"
        /\ ChatResponse.grammar_correction body = None)
  /\ (exists body,
        (chat_endpoint initial_state (answering "{}") interview_request).2
        = OK body
        /\ ChatResponse.ai_reply body
           = "[INTERVIEW MODE] I heard you say: 'I am ready'. (MockAI Mode)"
        /\ ChatResponse.grammar_correction body
           = Some "Mock feedback: Good effort!")
  /\ (exists body,
        (chat_endpoint initial_state (answering "{}") quiz_request).2 = OK body
        /\ ChatResponse.ai_reply body
           = "[QUIZ MODE] I heard you say: 'Hello'. (MockAI Mode)").
Proof.
  split; [reflexivity|]. split; [reflexivity|]. split; [reflexivity|].
  split; [reflexivity|]. split; [discriminate|]. split; [reflexivity|].
  split; [|split].
  - destruct (mock_mode initial_state (answering "{}") hello eq_refl)
      as (body & Hb & _ & _ & _ & _ & Hc & _).
    exists body. split; [exact Hb|]. apply Hc. left. reflexivity.
  - destruct (mock_mode initial_state (answering "{}") interview_request eq_refl)
      as (body & Hb & _ & _ & _ & Hi & _).
    exists body. split; [exact Hb|].
    destruct (Hi eq_refl) as (Hr & Hg & _). split; [exact Hr|exact Hg].
  - destruct (mock_mode initial_state (answering "{}") quiz_request eq_refl)
      as (body & Hb & _ & _ & _ & _ & _ & Hq & _).
    exists body. split; [exact Hb|].
    destruct (Hq "quiz" eq_refl) as (Hr & _); [discriminate|reflexivity|].
    exact Hr.
Defined.

(** C10.  A mode other than interview is not rejected and is handled as
    chat: the chat template heads the prompt of every call to the
    provider; without a provider handle the client receives status 200
    with a null feedback, and, for a mode of the ASCII range that is not
    empty, the placeholder built from that mode in upper case (read off the
    table of letters); a request without a mode, or with an empty one, is
    handled exactly as one with mode chat. *)
Theorem mode_not_validated (st : state) (w : world) (request : ChatRequest.t) :
  ChatRequest.mode request <> Some "interview" ->
  system_prompt (resolve_mode request) = CHAT_PROMPT
  /\ (forall c, c ∈ (chat_endpoint st w request).1.2 ->
      exists rest, call_prompt c = CHAT_PROMPT +:+ rest)
  /\ (model st = None ->
      exists body,
        (chat_endpoint st w request).2 = OK body
        /\ ChatResponse.grammar_correction body = None
        /\ forall m, ChatRequest.mode request = Some m ->
             m <> EmptyString -> isascii m = true ->
             occurs (uppercased m) (ChatResponse.ai_reply body)
             /\ ChatResponse.ai_reply body
                = "[" +:+ uppercased m +:+ " MODE] I heard you say: '"
                  +:+ ChatRequest.user_message request +:+ "'. (MockAI Mode)")
  /\ (ChatRequest.mode request = None
      \/ ChatRequest.mode request = Some EmptyString ->
      chat_endpoint st w request
      = chat_endpoint st w
          (ChatRequest.new (ChatRequest.user_message request) (Some "chat")
             (ChatRequest.session_id request))).
Proof.
  intros Hmode. pose proof (resolve_mode_not_interview _ Hmode) as Hne.
  assert (Hsys : system_prompt (resolve_mode request) = CHAT_PROMPT).
  { unfold system_prompt. by rewrite Hne. }
  split; [exact Hsys|]. split; [|split].
  - intros c. rewrite chat_endpoint_unfold. simpl.
    intros (_ & _ & Hp)%answered_calls.
    apply full_prompt_prefix in Hp. by rewrite Hsys in Hp.
  - intros Hm. destruct (chat_endpoint_mock st w request Hm) as [-> _].
    unfold mock_feedback. rewrite Hne. simpl.
    eexists. split; [reflexivity|]. simpl. split; [done|].
    intros [|c m] Hreq Hm0 Ha; [done|].
    rewrite (resolve_mode_some _ _ _ Hreq), <- upper_uppercased.
    split; [|reflexivity].
    apply StrFacts.occurs_app_r, StrFacts.occurs_app_l, StrFacts.occurs_refl.
  - intros H. destruct request as [u m s]. simpl in *.
    destruct H as [->| ->]; reflexivity.
Qed.

Lemma mode_not_validated_witness :
  ChatRequest.mode quiz_request <> Some "interview"
  /\ model initial_state = None
  /\ ChatRequest.mode quiz_request = Some "quiz"
  /\ "quiz" <> EmptyString
  /\ isascii "quiz" = true
  /\ exists body,
       (chat_endpoint initial_state (answering "{}") quiz_request).2 = OK body
       /\ ChatResponse.grammar_correction body = None
       /\ ChatResponse.ai_reply body
          = "[QUIZ MODE] I heard you say: 'Hello'. (MockAI Mode)".
Proof.
  assert (H : ChatRequest.mode quiz_request <> Some "interview") by discriminate.
  split; [exact H|]. split; [reflexivity|]. split; [reflexivity|].
  split; [discriminate|]. split; [reflexivity|].
  destruct (mode_not_validated initial_state (answering "{}") quiz_request H)
    as (_ & _ & Hmock & _).
  destruct (Hmock eq_refl) as (body & Hb & Hg & Hm).
  exists body. split; [exact Hb|]. split; [exact Hg|].
  destruct (Hm "quiz" eq_refl) as [_ Hr]; [discriminate|reflexivity|].
  exact Hr.
Defined.

(** C8, as stated, fails: a supplied session id that is the empty string
    is not used; the request gets a generated identifier instead. *)
Lemma empty_session_id_replaced :
  ChatRequest.session_id empty_id_request = Some EmptyString
  /\ (chat_endpoint initial_state (answering "{}") empty_id_request).2
     = OK (ChatResponse.new
             "[CHAT MODE] I heard you say: 'Hello'. (MockAI Mode)" None
             "123e4567-e89b-42d3-a456-426614174000")
  /\ ~ (forall st w request s body,
          ChatRequest.session_id request = Some s ->
          (chat_endpoint st w request).2 = OK body ->
          ChatResponse.session_id body = s).
Proof.
  split; [reflexivity|]. split; [reflexivity|].
  intros H.
  specialize (H initial_state (answering "{}") empty_id_request EmptyString _
                eq_refl eq_refl).
  discriminate H.
Qed.

Lemma asked_cons p request reqs :
  asked ((p, request) :: reqs)
  = (if asks_uuid request then 1 else 0) + asked reqs.
Proof. reflexivity. Qed.

Lemma worlds_lookup src n reqs i w request :
  worlds src n reqs !! i = Some (w, request) ->
  exists p,
    reqs !! i = Some (p, request)
    /\ uuid4 w = nth_uuid src (n + asked (take i reqs)).
Proof.
  revert n i. induction reqs as [|[p r] reqs IH]; intros n i; [done|].
  destruct i as [|i]; simpl.
  - intros [= <- <-]. exists p. split; [done|]. simpl.
    f_equal. lia.
  - intros H. destruct (IH _ _ H) as (p' & Hp & Hu).
    exists p'. split; [done|]. rewrite Hu. cbn [asked snd]. f_equal.
    destruct (asks_uuid r); lia.
Qed.

Lemma responses_lookup st evs i r :
  responses st evs !! i = Some r ->
  exists w request,
    evs !! i = Some (w, request)
    /\ r = (chat_endpoint (run st (take i evs)) w request).2.
Proof.
  revert st i. induction evs as [|[w request] evs IH]; intros st i; [done|].
  destruct i as [|i]; simpl.
  - intros [= <-]. by exists w, request.
  - intros H. destruct (IH _ _ H) as (w' & request' & He & Hr).
    by exists w', request'.
Qed.

Lemma responses_length st evs : length (responses st evs) = length evs.
Proof.
  revert st. induction evs as [|ev evs IH]; intros st; simpl; [done|].
  by rewrite IH.
Qed.

Lemma worlds_length src n reqs : length (worlds src n reqs) = length reqs.
Proof.
  revert n. induction reqs as [|[p r] reqs IH]; intros n; simpl; [done|].
  by rewrite IH.
Qed.

Lemma asks_uuid_omitted request :
  ChatRequest.session_id request = None
  \/ ChatRequest.session_id request = Some EmptyString ->
  asks_uuid request = true.
Proof. intros [H|H]; unfold asks_uuid; by rewrite H. Qed.

Lemma resolve_omitted request w :
  ChatRequest.session_id request = None
  \/ ChatRequest.session_id request = Some EmptyString ->
  resolve_session_id request w = uuid4 w.
Proof. intros [H|H]; unfold resolve_session_id; by rewrite H. Qed.

Lemma asked_take_lt reqs i j p request :
  i < j -> reqs !! i = Some (p, request) -> asks_uuid request = true ->
  asked (take i reqs) < asked (take j reqs).
Proof.
  revert i j. induction reqs as [|[p' r'] reqs IH]; intros i j Hij; [done|].
  destruct j as [|j]; [lia|].
  destruct i as [|i]; simpl.
  - intros [= -> ->] Ha. cbn [asked snd]. rewrite Ha. lia.
  - intros Hl Ha. cbn [asked snd].
    pose proof (IH i j ltac:(lia) Hl Ha). lia.
Qed.

(** The session id a client receives is the key of its request. *)
Lemma response_session_id st w request body :
  (chat_endpoint st w request).2 = OK body ->
  ChatResponse.session_id body = resolve_session_id request w.
Proof.
  rewrite chat_endpoint_unfold. simpl.
  by intros (_ & ? & _)%validate_OK.
Qed.

(** The identifier a request without session id receives, by its rank
    among the requests that asked for one. *)
Lemma generated_session_id src st n reqs i p request body :
  reqs !! i = Some (p, request) ->
  ChatRequest.session_id request = None
  \/ ChatRequest.session_id request = Some EmptyString ->
  responses st (worlds src n reqs) !! i = Some (OK body) ->
  ChatResponse.session_id body = nth_uuid src (n + asked (take i reqs)).
Proof.
  intros Hi Ho Hr.
  apply responses_lookup in Hr as (w & request' & He & Hb).
  destruct (worlds_lookup _ _ _ _ _ _ He) as (p' & Hp & Hu).
  rewrite Hi in Hp. injection Hp as <- <-.
  symmetry in Hb. apply response_session_id in Hb.
  by rewrite Hb, resolve_omitted, Hu.
Qed.

(** C8, amended.  The response echoes the session key the turns were
    recorded under, and no other session changes.  A supplied session id
    that is not empty is that key.  When the session id is omitted (or
    empty) the key is the identifier drawn from [uuid4]; in a process,
    whose identifiers come from a source that never repeats itself, two
    different requests without session id receive two different session
    ids, both handed out by the source. *)
Theorem session_id_resolution (st : state) (w : world) (request : ChatRequest.t) :
  let session_id := resolve_session_id request w in
  (forall body, (chat_endpoint st w request).2 = OK body ->
     ChatResponse.session_id body = session_id)
  /\ (exists reply,
        last (history (chat_endpoint st w request).1.1 session_id)
        = Some (Message "model" [reply]))
  /\ (forall other, other <> session_id ->
        history (chat_endpoint st w request).1.1 other = history st other)
  /\ (forall s, ChatRequest.session_id request = Some s -> s <> EmptyString ->
        session_id = s)
  /\ (ChatRequest.session_id request = None
      \/ ChatRequest.session_id request = Some EmptyString ->
      session_id = uuid4 w)
  /\ (forall (src : uuid_source) (n : nat)
        (reqs : list (provider * ChatRequest.t))
        (i j : nat) (pi pj : provider) (ri rj : ChatRequest.t)
        (bi bj : ChatResponse.t),
        i <> j ->
        reqs !! i = Some (pi, ri) -> reqs !! j = Some (pj, rj) ->
        ChatRequest.session_id ri = None
        \/ ChatRequest.session_id ri = Some EmptyString ->
        ChatRequest.session_id rj = None
        \/ ChatRequest.session_id rj = Some EmptyString ->
        responses st (worlds src n reqs) !! i = Some (OK bi) ->
        responses st (worlds src n reqs) !! j = Some (OK bj) ->
        ChatResponse.session_id bi <> ChatResponse.session_id bj
        /\ (exists k, ChatResponse.session_id bi = nth_uuid src k)
        /\ (exists k, ChatResponse.session_id bj = nth_uuid src k)).
Proof.
  cbv zeta. split; [|split; [|split; [|split; [|split]]]].
  - intros body. apply response_session_id.
  - eexists. apply history_last.
  - intros other Hne. by apply history_step_other.
  - intros s Hs Hne. unfold resolve_session_id. rewrite Hs.
    destruct s; [done|reflexivity].
  - apply resolve_omitted.
  - intros src n reqs i j pi pj ri rj bi bj Hij Hi Hj Hoi Hoj Hbi Hbj.
    rewrite (generated_session_id _ _ _ _ _ _ _ _ Hi Hoi Hbi).
    rewrite (generated_session_id _ _ _ _ _ _ _ _ Hj Hoj Hbj).
    split; [|split; by eexists].
    intros Heq%nth_uuid_fresh.
    destruct (decide (i < j)) as [Hlt|Hge].
    + pose proof (asked_take_lt reqs i j pi ri Hlt Hi (asks_uuid_omitted _ Hoi)).
      lia.
    + pose proof (asked_take_lt reqs j i pj rj ltac:(lia) Hj
                    (asks_uuid_omitted _ Hoj)).
      lia.
Qed.

Lemma session_id_resolution_witness :
  ChatRequest.session_id hello = Some "s1"
  /\ "s1" <> EmptyString
  /\ resolve_session_id hello (answering "{}") = "s1"
  /\ 0 <> 1
  /\ [(always "{}", no_id_request); (always "{}", no_id_request)] !! 0
     = Some (always "{}", no_id_request)
  /\ [(always "{}", no_id_request); (always "{}", no_id_request)] !! 1
     = Some (always "{}", no_id_request)
  /\ ChatRequest.session_id no_id_request = None
  /\ (exists b0 b1,
        responses initial_state
          (worlds counting_source 0
             [(always "{}", no_id_request); (always "{}", no_id_request)])
        = [OK b0; OK b1]
        /\ ChatResponse.session_id b0 = "session-0"
        /\ ChatResponse.session_id b1 = "session-1"
        /\ ChatResponse.session_id b0 <> ChatResponse.session_id b1).
Proof.
  split; [reflexivity|]. split; [discriminate|].
  destruct (session_id_resolution initial_state (answering "{}") hello)
    as (_ & _ & _ & H & _ & Hd).
  split; [apply H; [reflexivity|discriminate]|].
  split; [discriminate|]. split; [reflexivity|]. split; [reflexivity|].
  split; [reflexivity|].
  eexists _, _. split; [vm_compute; reflexivity|].
  split; [reflexivity|]. split; [reflexivity|].
  refine (proj1 (Hd counting_source 0
                   [(always "{}", no_id_request); (always "{}", no_id_request)]
                   0 1 _ _ _ _ _ _ _ eq_refl eq_refl
                   (or_introl eq_refl) (or_introl eq_refl) _ _)).
  - discriminate.
  - vm_compute. reflexivity.
  - vm_compute. reflexivity.
Defined.

(** ** The bootstrap *)

Lemma priority_loop_find ps available :
  priority_loop ps available None
  = find (fun p => bool_decide (p ∈ available)) ps.
Proof.
  induction ps as [|p ps IH]; simpl; [done|].
  by destruct (bool_decide (p ∈ available)).
Qed.

Lemma gemma_loop_find ms :
  gemma_loop ms None
  = find (fun m => Str.contains "gemma" m && Str.contains "-it" m) ms.
Proof.
  induction ms as [|m ms IH]; simpl; [done|].
  by destruct (Str.contains "gemma" m && Str.contains "-it" m).
Qed.

(** The loops of the code select what the specification describes. *)
Lemma select_model_spec available :
  select_model available = Some (select_spec available).
Proof.
  unfold select_model, select_spec.
  rewrite priority_loop_find.
  destruct (find _ priority_models) as [p|] eqn:Hp.
  - apply find_some in Hp as [Hin _].
    assert (Str.truthy p = true) as Ht.
    { unfold priority_models in Hin. simpl in Hin.
      destruct Hin as [<-|[<-|[<-|[<-|[<-|[]]]]]]; reflexivity. }
    simpl. rewrite Ht. simpl. by rewrite Ht.
  - simpl. rewrite gemma_loop_find.
    destruct (find _ available) as [m|] eqn:Hm; simpl; [|done].
    apply find_some in Hm as [_ Hm].
    destruct m as [|c m]; [done|reflexivity].
Qed.

Lemma bootstrap_model w : model (bootstrap w) = handle_spec w.
Proof.
  unfold bootstrap, handle_spec.
  destruct (py_or _ _) as [[|c key]|]; try done. simpl Str.truthy. cbv iota.
  destruct (configure w (String c key)); [|done].
  destruct (list_models w) as [available|]; [|done].
  rewrite select_model_spec.
  by destruct (new_model w (select_spec available)).
Qed.

Lemma bootstrap_target w m :
  model (bootstrap w) = Some m -> TARGET_MODEL_NAME (bootstrap w) = model_name m.
Proof.
  unfold bootstrap.
  repeat (case_match; simpl; try done); by intros [= <-].
Qed.

(** C5.  The handle the bootstrap sets is the one the specification
    describes: a handle on the first available candidate of the priority
    list, else on the first available model with both fragments in its
    name, else on the first available model, else on the default
    identifier; the recorded identifier is that of the handle.  An
    exception raised while configuring, while listing the models or while
    building the handle leaves the handle unset, and so does a missing
    credential.  An unset handle stays unset through every later request,
    and each of them gets the placeholder reply without any call to the
    provider. *)
Theorem bootstrap_selection (w : startup) :
  model (bootstrap w) = handle_spec w
  /\ (forall m, model (bootstrap w) = Some m ->
        TARGET_MODEL_NAME (bootstrap w) = model_name m)
  /\ (forall available, select_model available = Some (select_spec available))
  /\ (forall key e,
        py_or (env_GOOGLE_API_KEY w) (env_GEMINI_API_KEY w) = Some key ->
        configure w key = Raise e -> model (bootstrap w) = None)
  /\ (forall e, list_models w = Raise e -> model (bootstrap w) = None)
  /\ (forall available e,
        list_models w = Return available ->
        new_model w (select_spec available) = Raise e ->
        model (bootstrap w) = None)
  /\ (py_or (env_GOOGLE_API_KEY w) (env_GEMINI_API_KEY w) = None ->
        model (bootstrap w) = None)
  /\ (model (bootstrap w) = None ->
      forall evs w' request,
        let st := run (bootstrap w) evs in
        model st = None
        /\ (chat_endpoint st w' request).1.2 = []
        /\ (chat_endpoint st w' request).2
           = OK (ChatResponse.new
                   (mock_reply (resolve_mode request)
                      (ChatRequest.user_message request))
                   (if String.eqb (resolve_mode request) "interview"
                    then Some "Mock feedback: Good effort!" else None)
                   (resolve_session_id request w'))).
Proof.
  split; [apply bootstrap_model|]. split; [apply bootstrap_target|].
  split; [apply select_model_spec|].
  rewrite bootstrap_model. unfold handle_spec.
  split; [|split; [|split; [|split]]].
  - intros key e -> He. destruct key; [done|]. by rewrite He.
  - intros e He. rewrite He. by repeat case_match.
  - intros available e Hl He. rewrite Hl, He. by repeat case_match.
  - by intros ->.
  - intros Hnone evs w' request. set (st := run (bootstrap w) evs).
    assert (Hst : model st = None).
    { subst st. rewrite run_model, bootstrap_model. exact Hnone. }
    split; [exact Hst|].
    destruct (chat_endpoint_mock st w' request Hst) as [-> ->].
    split; [done|]. unfold mock_feedback.
    by destruct (String.eqb _ _).
Qed.

Lemma bootstrap_selection_witness :
  list_models (sample_startup ["models/x"; "models/gemini-flash-latest";
                               "models/gemma-3-4b-it"])
  = Return ["models/x"; "models/gemini-flash-latest"; "models/gemma-3-4b-it"]
  /\ model (bootstrap (sample_startup
                         ["models/x"; "models/gemini-flash-latest";
                          "models/gemma-3-4b-it"]))
     = Some {| model_name := "models/gemma-3-4b-it" |}.
Proof.
  split; [reflexivity|].
  destruct (bootstrap_selection
              (sample_startup ["models/x"; "models/gemini-flash-latest";
                               "models/gemma-3-4b-it"])) as [H _].
  rewrite H. reflexivity.
Defined.

(** ** The JSON hint *)

Module CaseFacts.

Lemma lower_app (a b : string) :
  Str.lower (a +:+ b) = Str.lower a +:+ Str.lower b.
Proof.
  induction a as [|x a IH]; [done|].
  rewrite StrFacts.app_cons. unfold Str.lower in *. simpl.
  by rewrite IH.
Qed.

(** A text whose lower-case form is a concatenation splits the same
    way. *)
Lemma lower_split (s a b : string) :
  Str.lower s = a +:+ b ->
  exists a0 b0, s = a0 +:+ b0 /\ Str.lower a0 = a /\ Str.lower b0 = b.
Proof.
  revert s. induction a as [|x a IH]; intros s H.
  - by exists EmptyString, s.
  - destruct s as [|y s]; [done|].
    rewrite StrFacts.app_cons in H. injection H as Hx Hs.
    destruct (IH s Hs) as (a0 & b0 & -> & <- & <-).
    exists (String y a0), b0. rewrite <- Hx. done.
Qed.

Lemma lower_char_same (c : ascii) : same_letter c (Str.lower_char c).
Proof.
  destruct c as [[] [] [] [] [] [] [] []];
    first [ by left
          | right; right; vm_compute;
            repeat (first [left; reflexivity | right]) ].
Qed.

Lemma lower_same (s : string) : same_text s (Str.lower s).
Proof.
  induction s as [|c s IH]; [constructor|].
  unfold Str.lower. simpl. constructor; [apply lower_char_same|exact IH].
Qed.

(** The converse for a letter that is already in lower case. *)
Lemma same_letter_lower (a b : ascii) :
  same_letter a b -> Str.is_lower b = true -> Str.lower_char a = b.
Proof.
  intros [->|[H|H]] Hb.
  - destruct b as [[] [] [] [] [] [] [] []];
      first [reflexivity | vm_compute in Hb; discriminate Hb].
  - unfold letters in H. simpl in H.
    repeat (destruct H as [H|H];
            [injection H as <- <-; vm_compute in Hb; discriminate Hb|]).
    contradiction.
  - unfold letters in H. simpl in H.
    repeat (destruct H as [H|H]; [injection H as <- <-; reflexivity|]).
    contradiction.
Qed.

Lemma same_text_gemini (mid : string) :
  same_text mid "gemini" <-> Str.lower mid = "gemini".
Proof.
  split.
  - intros H.
    repeat match goal with
           | H : same_text _ (String _ _) |- _ =>
               inversion H; subst; clear H
           | H : same_text _ EmptyString |- _ =>
               inversion H; subst; clear H
           end.
    unfold Str.lower. simpl.
    repeat match goal with
           | H : same_letter _ _ |- _ =>
               apply same_letter_lower in H; [rewrite H; clear H|reflexivity]
           end.
    reflexivity.
  - intros <-. apply lower_same.
Qed.

(** The test of the code decides the family of the specification. *)
Lemma gemini_test (name : string) :
  Str.contains "gemini" (Str.lower name) = true <-> gemini_family name.
Proof.
  rewrite StrFacts.contains_occurs. unfold occurs, gemini_family. split.
  - intros (pre & suf & H).
    apply lower_split in H as (pre0 & rest & -> & <- & H).
    apply lower_split in H as (mid & suf0 & -> & H & <-).
    exists pre0, mid, suf0. split; [done|]. by apply same_text_gemini.
  - intros (pre & mid & suf & -> & H%same_text_gemini).
    exists (Str.lower pre), (Str.lower suf).
    by rewrite !lower_app, H.
Qed.

End CaseFacts.

Lemma run_bootstrap_target boot evs m :
  model (run (bootstrap boot) evs) = Some m ->
  TARGET_MODEL_NAME (run (bootstrap boot) evs) = model_name m.
Proof.
  rewrite run_model, run_target. apply bootstrap_target.
Qed.

(** C7.  In every run of the server, a call made to the provider goes to
    the selected model, and its generation configuration is either the
    JSON hint alone or empty.  For a model identifier of the ASCII range,
    it is the hint exactly when the identifier belongs to the gemini family
    (some part of it reads gemini, each letter in either case, by the table
    of letters) and it is empty exactly when it does not. *)
Theorem json_hint_iff_gemini (boot : startup)
  (evs : list (world * ChatRequest.t)) (w : world) (request : ChatRequest.t)
  (c : call) :
  c ∈ (chat_endpoint (run (bootstrap boot) evs) w request).1.2 ->
  model (bootstrap boot) = Some (call_model c)
  /\ (call_config c = [("response_mime_type", "application/json")]
      \/ call_config c = [])
  /\ (isascii (model_name (call_model c)) = true ->
      (call_config c = [("response_mime_type", "application/json")]
       <-> gemini_family (model_name (call_model c)))
      /\ (call_config c = [] <-> ~ gemini_family (model_name (call_model c)))).
Proof.
  rewrite chat_endpoint_unfold. simpl.
  intros (Hm & Hc & _)%answered_calls.
  rewrite (run_bootstrap_target _ _ _ Hm) in Hc.
  rewrite run_model in Hm. split; [exact Hm|].
  rewrite <- CaseFacts.gemini_test, Hc. unfold gen_config.
  destruct (Str.contains "gemini" _).
  - split; [by left|]. intros _. split; split; done.
  - split; [by right|]. intros _. split; split; done.
Qed.

Lemma json_hint_iff_gemini_witness :
  Call {| model_name := "models/GeMiNi-Pro" |}
    (call_prompt_of_hello mixed_case_state)
    [("response_mime_type", "application/json")]
  ∈ (chat_endpoint (run (bootstrap (sample_startup ["models/GeMiNi-Pro"])) [])
       (answering "{}") hello).1.2
  /\ isascii "models/GeMiNi-Pro" = true
  /\ gemini_family "models/GeMiNi-Pro"
  /\ Call {| model_name := "models/gemma-3-27b-it" |}
       (call_prompt_of_hello gemma_state) []
     ∈ (chat_endpoint (run (bootstrap (sample_startup ["models/gemma-3-27b-it"])) [])
          (answering "{}") hello).1.2
  /\ isascii "models/gemma-3-27b-it" = true
  /\ ~ gemini_family "models/gemma-3-27b-it".
Proof.
  assert (H : Call {| model_name := "models/GeMiNi-Pro" |}
                (call_prompt_of_hello mixed_case_state)
                [("response_mime_type", "application/json")]
              ∈ (chat_endpoint
                   (run (bootstrap (sample_startup ["models/GeMiNi-Pro"])) [])
                   (answering "{}") hello).1.2).
  { vm_compute. apply list_elem_of_here. }
  assert (H' : Call {| model_name := "models/gemma-3-27b-it" |}
                 (call_prompt_of_hello gemma_state) []
               ∈ (chat_endpoint
                    (run (bootstrap (sample_startup ["models/gemma-3-27b-it"])) [])
                    (answering "{}") hello).1.2).
  { vm_compute. apply list_elem_of_here. }
  split; [exact H|]. split; [reflexivity|]. split; [|split; [exact H'|split]].
  - destruct (json_hint_iff_gemini _ _ _ _ _ H) as (_ & _ & Hiff).
    destruct (Hiff eq_refl) as [Hyes _]. by apply Hyes.
  - reflexivity.
  - destruct (json_hint_iff_gemini _ _ _ _ _ H') as (_ & _ & Hiff).
    destruct (Hiff eq_refl) as [_ Hno]. by apply Hno.
Defined.

(** ** The provider is called on every request once a handle is set *)

Lemma last_n_Forall {A : Type} (P : A -> Prop) n (l : list A) :
  Forall P l -> Forall P (last_n n l).
Proof. apply Forall_drop. Qed.

Lemma manage_history_well_formed sid msg c :
  parts msg <> [] -> well_formed c -> well_formed (manage_history sid msg c).
Proof.
  intros Hmsg Hc sid' h.
  destruct (decide (sid = sid')) as [<-|Hne].
  - rewrite manage_history_lookup. intros [= <-].
    apply last_n_Forall, Forall_app. split.
    + destruct (c !! sid) as [h0|] eqn:E; simpl; [by eapply Hc|constructor].
    + by repeat constructor.
  - rewrite manage_history_other by done. apply Hc.
Qed.

Lemma chat_endpoint_well_formed st w request :
  well_formed (conversations st) ->
  well_formed (conversations (chat_endpoint st w request).1.1).
Proof.
  intros H. rewrite chat_endpoint_unfold. simpl.
  unfold with_user_turn. by repeat apply manage_history_well_formed.
Qed.

Lemma run_well_formed st evs :
  well_formed (conversations st) -> well_formed (conversations (run st evs)).
Proof.
  revert st. induction evs as [|[w request] evs IH]; intros st H; [done|].
  rewrite run_cons. by apply IH, chat_endpoint_well_formed.
Qed.

Lemma render_all_well_formed h :
  Forall (fun msg => parts msg <> []) h -> exists lines, render_all h = Return lines.
Proof.
  induction 1 as [|msg h Hmsg _ [lines IH]]; [by eexists|].
  simpl. unfold render_message. destruct (parts msg) as [|p ps]; [done|].
  simpl. rewrite IH. by eexists.
Qed.

(** On the states a run reaches, building the prompt never raises, so a
    state with a handle calls the provider at every request. *)
Lemma provider_called boot evs w request m :
  model (bootstrap boot) = Some m ->
  exists prompt,
    provider_answer (run (bootstrap boot) evs) w request
    = Some (generate_content w m prompt (gen_config (model_name m))).
Proof.
  intros Hm. unfold provider_answer.
  rewrite run_model, Hm, run_target, (bootstrap_target _ _ Hm).
  assert (Hwf : well_formed (with_user_turn (run (bootstrap boot) evs) w request)).
  { apply manage_history_well_formed; [done|]. apply run_well_formed.
    rewrite bootstrap_conversations. intros sid h. by rewrite lookup_empty. }
  unfold full_prompt.
  destruct (with_user_turn _ _ _ !! resolve_session_id request w) as [h|] eqn:E.
  - destruct (render_all_well_formed h (Hwf _ _ E)) as [lines ->].
    rewrite bind_Return. by eexists.
  - unfold with_user_turn in E. by rewrite manage_history_lookup in E.
Qed.

(** ** Splitting and stripping *)

Module SplitFacts.

Lemma skip_length n s : String.length (Str.skip n s) = String.length s - n.
Proof.
  revert s. induction n as [|n IH]; intros s; simpl; [lia|].
  destruct s; simpl; [done|apply IH].
Qed.

Lemma starts_with_length p s :
  Str.starts_with p s = true -> String.length p <= String.length s.
Proof.
  intros [r ->]%StrFacts.starts_with_inv. rewrite StrFacts.app_length. lia.
Qed.

(** What [partition] finds accounts for the whole text. *)
Lemma partition_length sep s b a :
  Str.partition sep s = Some (b, a) ->
  String.length s = String.length b + String.length sep + String.length a.
Proof.
  revert b. induction s as [|c s IH]; intros b; simpl.
  - destruct (Str.starts_with sep EmptyString) eqn:Hp; [|done].
    intros [= <- <-]. apply starts_with_length in Hp.
    rewrite skip_length. simpl in *. lia.
  - destruct (Str.starts_with sep (String c s)) eqn:Hp.
    + intros [= <- <-]. apply starts_with_length in Hp.
      rewrite skip_length. simpl in *. lia.
    + destruct (Str.partition sep s) as [[b' a']|]; [|done].
      intros [= <- <-]. simpl. rewrite (IH b' eq_refl). lia.
Qed.

(** The rounds of [split] are enough: more fuel changes nothing. *)
Lemma split_fuel_enough sep s n m :
  sep <> EmptyString ->
  String.length s <= n -> String.length s <= m ->
  Str.split_fuel n sep s = Str.split_fuel m sep s.
Proof.
  intros Hsep. revert s m. induction n as [|n IH]; intros s m Hn Hm.
  - destruct s; [|simpl in Hn; lia].
    destruct m; [done|]. simpl. by destruct sep.
  - destruct m as [|m].
    + destruct s; [|simpl in Hm; lia]. simpl. by destruct sep.
    + simpl. destruct (Str.partition sep s) as [[b a]|] eqn:Hp; [|done].
      f_equal. apply partition_length in Hp.
      assert (0 < String.length sep) by (destruct sep; simpl; [done|lia]).
      apply IH; lia.
Qed.

Lemma contains_cons_false sub c s :
  Str.contains sub (String c s) = false ->
  Str.starts_with sub (String c s) = false /\ Str.contains sub s = false.
Proof.
  simpl. by destruct (Str.starts_with sub (String c s)).
Qed.

Lemma contains_app_false sub a b :
  Str.contains sub (a +:+ b) = false -> Str.contains sub a = false.
Proof.
  intros H. destruct (Str.contains sub a) eqn:Ha; [|done].
  apply StrFacts.contains_occurs in Ha.
  apply (StrFacts.occurs_app_l _ _ b), StrFacts.contains_occurs in Ha.
  congruence.
Qed.

Lemma partition_absent sep s :
  Str.contains sep s = false -> Str.partition sep s = None.
Proof.
  induction s as [|c s IH]; simpl.
  - by destruct (Str.starts_with sep EmptyString).
  - destruct (Str.starts_with sep (String c s)); [done|].
    intros H. by rewrite IH.
Qed.

Lemma partition_cons sep c s :
  Str.partition sep (String c s)
  = if Str.starts_with sep (String c s)
    then Some (EmptyString, Str.skip (String.length sep) (String c s))
    else match Str.partition sep s with
         | Some (b, a) => Some (String c b, a)
         | None => None
         end.
Proof. reflexivity. Qed.

Lemma contains_cons sub c s :
  Str.contains sub (String c s)
  = if Str.starts_with sub (String c s) then true else Str.contains sub s.
Proof. reflexivity. Qed.

(** Before a closing fence, a text that is not empty shows the same
    first three characters whether two or three backquotes follow. *)
Lemma starts_with_closing c s :
  Str.starts_with "```" (String c s +:+ "```")
  = Str.starts_with "```" (String c s +:+ "``").
Proof.
  destruct s as [|c1 [|c2 s]]; rewrite !StrFacts.app_cons; simpl;
    by rewrite ?andb_true_r.
Qed.

Lemma starts_with_json_fence s :
  Str.starts_with "```json" s = true -> Str.starts_with "```" s = true.
Proof.
  intros [r ->]%StrFacts.starts_with_inv.
  change "```json" with ("```" +:+ "json").
  rewrite StrFacts.app_assoc. apply StrFacts.starts_with_app.
Qed.

(** The closing fence is the first one when the text before it holds
    no fence and does not end in a backquote. *)
Lemma partition_closing_fence inner :
  Str.contains "```" (inner +:+ "``") = false ->
  Str.partition "```" (inner +:+ "```") = Some (inner, EmptyString).
Proof.
  induction inner as [|c s IH]; [done|].
  intros H. pose proof H as H0. rewrite StrFacts.app_cons in H0.
  apply contains_cons_false in H0 as [Hs Hc].
  rewrite <- StrFacts.app_cons, <- starts_with_closing in Hs.
  rewrite StrFacts.app_cons in Hs |- *.
  rewrite partition_cons, Hs. by rewrite IH.
Qed.

Lemma no_json_fence_before_closing inner :
  Str.contains "```" (inner +:+ "``") = false ->
  Str.contains "```json" (inner +:+ "```") = false.
Proof.
  induction inner as [|c s IH]; [done|].
  intros H. pose proof H as H0. rewrite StrFacts.app_cons in H0.
  apply contains_cons_false in H0 as [Hs Hc].
  rewrite <- StrFacts.app_cons, <- starts_with_closing in Hs.
  rewrite StrFacts.app_cons in Hs |- *.
  rewrite contains_cons.
  destruct (Str.starts_with "```json" _) eqn:Hj.
  - apply starts_with_json_fence in Hj. congruence.
  - by apply IH.
Qed.

Lemma no_json_fence s :
  Str.contains "```" s = false -> Str.contains "```json" s = false.
Proof.
  intros H. destruct (Str.contains "```json" s) eqn:Hj; [|done].
  apply StrFacts.contains_occurs in Hj as (pre & suf & ->).
  assert (Str.contains "```" (pre +:+ "```json" +:+ suf) = true); [|congruence].
  apply StrFacts.contains_occurs. exists pre, ("json" +:+ suf).
  change "```json" with ("```" +:+ "json").
  by rewrite StrFacts.app_assoc.
Qed.

(** [strip] leaves a stripped text as it is. *)
Lemma rstrip_idemp s : Str.rstrip (Str.rstrip s) = Str.rstrip s.
Proof.
  induction s as [|c s IH]; [done|]. simpl.
  destruct (Str.rstrip s) as [|c' r] eqn:E.
  - destruct (Str.is_space c) eqn:Hc; [done|]. simpl. by rewrite Hc.
  - simpl. simpl in IH. by rewrite IH.
Qed.

Lemma lstrip_head s :
  match Str.lstrip s with
  | EmptyString => True
  | String c _ => Str.is_space c = false
  end.
Proof.
  induction s as [|c s IH]; [done|]. simpl.
  destruct (Str.is_space c) eqn:Hc; [exact IH|exact Hc].
Qed.

Lemma rstrip_head s :
  match s with
  | EmptyString => Str.rstrip s = EmptyString
  | String c _ =>
      Str.is_space c = false -> exists r, Str.rstrip s = String c r
  end.
Proof.
  destruct s as [|c s]; [done|]. intros Hc. simpl.
  destruct (Str.rstrip s); [rewrite Hc|]; by eexists.
Qed.

Lemma strip_idemp s : Str.strip (Str.strip s) = Str.strip s.
Proof.
  unfold Str.strip.
  pose proof (lstrip_head s) as Hl. pose proof (rstrip_head (Str.lstrip s)) as Hr.
  destruct (Str.lstrip s) as [|c l] eqn:El.
  - rewrite Hr. reflexivity.
  - destruct (Hr Hl) as [r Er]. rewrite Er.
    simpl Str.lstrip. rewrite Hl. rewrite <- Er. apply rstrip_idemp.
Qed.

End SplitFacts.

(** ** The decoder never runs out of fuel *)

Module DecoderFacts.
Import Decoder.

(** Case analysis on what the decoder tests, innermost first, leaving
    its recursive calls in place. *)
Ltac decoder_cases :=
  repeat match goal with
         | |- context [match ?x with _ => _ end] =>
             lazymatch x with
             | context [match _ with _ => _ end] => fail
             | scan_string _ _ _ _ => fail
             | parse_value _ _ => fail
             | parse_elements _ _ _ => fail
             | parse_members _ _ _ => fail
             | _ => destruct x eqn:?
             end
         end.

Lemma skip_ws_length s : String.length (skip_ws s) <= String.length s.
Proof.
  induction s as [|c s IH]; simpl; [done|].
  destruct (is_ws c); simpl; lia.
Qed.

Lemma scan_string_fine s : forall st pending out,
  match scan_string st pending out s with
  | Return (_, r) => String.length r < String.length s
  | Raise e => e <> depth_exceeded
  end.
Proof.
  induction s as [|c s IH]; intros st pending out; simpl; [done|].
  assert (Hrec : forall st' pending' out',
             match scan_string st' pending' out' s with
             | Return (_, r) => String.length r < S (String.length s)
             | Raise e => e <> depth_exceeded
             end).
  { intros st' pending' out'. specialize (IH st' pending' out').
    destruct (scan_string st' pending' out' s) as [[t r]|e]; [lia|done]. }
  decoder_cases; try apply Hrec; try done. simpl. lia.
Qed.

Lemma take_digits_length s :
  String.length (take_digits s).2 <= String.length s.
Proof.
  induction s as [|c s IH]; simpl; [done|].
  destruct (is_digit c); simpl; [|lia].
  destruct (take_digits s) as [d r]. simpl in *. lia.
Qed.

Lemma scan_part_length lead signed s :
  String.length (scan_part lead signed s).2 <= String.length s.
Proof.
  unfold scan_part. destruct s as [|c r]; [done|].
  destruct (lead c); [|done].
  destruct r as [|c1 r1].
  - simpl. done.
  - destruct (signed && _).
    + pose proof (take_digits_length r1).
      destruct (take_digits r1) as [[|x d] r2]; simpl in *; lia.
    + pose proof (take_digits_length (String c1 r1)).
      destruct (take_digits (String c1 r1)) as [[|x d] r2]; simpl in *; lia.
Qed.

Lemma scan_number_length s l r :
  scan_number s = Some (l, r) -> String.length r <= String.length s.
Proof.
  unfold scan_number.
  set (p := match s with
            | String c r0 => if Ascii.eqb c "-" then ("-", r0) else (EmptyString, s)
            | EmptyString => (EmptyString, s)
            end).
  assert (Hp : String.length p.2 <= String.length s).
  { subst p. destruct s as [|c r0]; [done|]. destruct (Ascii.eqb c "-"); simpl; lia. }
  destruct p as [sg s1]. simpl in Hp.
  set (i := match s1 with
            | String c r0 =>
                if Ascii.eqb c "0" then Some ("0", r0)
                else if is_digit c then Some (take_digits s1) else None
            | EmptyString => None
            end).
  assert (Hi : match i with
               | Some (_, s2) => String.length s2 <= String.length s1
               | None => True
               end).
  { subst i. destruct s1 as [|c r0]; [done|].
    destruct (Ascii.eqb c "0"); [simpl; lia|].
    destruct (is_digit c); [|done].
    pose proof (take_digits_length (String c r0)).
    by destruct (take_digits (String c r0)). }
  destruct i as [[ip s2]|]; [|done].
  pose proof (scan_part_length (fun c => Ascii.eqb c ".") false s2) as H3.
  destruct (scan_part _ false s2) as [f s3].
  pose proof (scan_part_length (fun c => Ascii.eqb c "e" || Ascii.eqb c "E") true s3) as H4.
  destruct (scan_part _ true s3) as [e s4].
  intros [= _ <-]. simpl in *. lia.
Qed.

Lemma fine_mono x s s' :
  fine x s' -> String.length s' <= String.length s -> fine x s.
Proof. destruct x as [[v r]|e]; simpl; [lia|done]. Qed.

(** The lengths the tests of the decoder relate. *)
Ltac decoder_lengths :=
  repeat match goal with
         | H : skip_ws ?a = ?b |- _ =>
             let L := fresh "L" in
             pose proof (skip_ws_length a) as L; rewrite H in L; clear H
         | H : scan_number ?a = Some (_, _) |- _ =>
             apply scan_number_length in H
         | |- context [skip_ws ?a] =>
             lazymatch goal with
             | _ : String.length (skip_ws a) <= String.length a |- _ => fail
             | _ => pose proof (skip_ws_length a)
             end
         | _ : context [skip_ws ?a] |- _ =>
             lazymatch goal with
             | _ : String.length (skip_ws a) <= String.length a |- _ => fail
             | _ => pose proof (skip_ws_length a)
             end
         end;
  rewrite ?SplitFacts.skip_length in *; simpl String.length in *.

(** A step that ends without a further call. *)
Ltac decoder_done :=
  unfold fine; decoder_lengths; first [done | lia | simpl; lia].

Lemma parse_fine f :
  (forall s, 2 * String.length s + 1 <= f -> fine (parse_value f s) s)
  /\ (forall acc s, 2 * String.length s + 2 <= f ->
        fine (parse_elements f acc s) s)
  /\ (forall acc s, 2 * String.length s + 2 <= f ->
        fine (parse_members f acc s) s).
Proof.
  induction f as [|f (IHv & IHe & IHm)].
  { repeat split; intros; lia. }
  split; [|split].
  - intros s Hf. destruct s as [|c r]; [done|].
    cbn [parse_value]. unfold mbind, result_bind.
    decoder_cases; try decoder_done.
    + pose proof (scan_string_fine r Plain None EmptyString) as Hs.
      destruct (scan_string _ _ _ r) as [[t r']|e]; decoder_done.
    + eapply fine_mono; [apply IHm|]; decoder_done.
    + eapply fine_mono; [apply IHm|]; decoder_done.
    + eapply fine_mono; [apply IHe|]; decoder_done.
    + eapply fine_mono; [apply IHe|]; decoder_done.
  - intros acc s Hf. cbn [parse_elements]. unfold mbind, result_bind.
    pose proof (IHv s ltac:(lia)) as Hv.
    destruct (parse_value f s) as [[v r]|e]; [|done]. simpl in Hv.
    decoder_cases; try decoder_done.
    eapply fine_mono; [apply IHe|]; decoder_done.
  - intros acc s Hf. cbn [parse_members]. unfold mbind, result_bind.
    destruct s as [|c r]; [done|].
    decoder_cases; try decoder_done.
    pose proof (scan_string_fine r Plain None EmptyString) as Hs.
    destruct (scan_string _ _ _ r) as [[k r1]|e]; [|done].
    decoder_cases; try decoder_done.
    match goal with
    | |- context [parse_value f ?x] =>
        assert (Hv : fine (parse_value f x) x)
          by (apply IHv; decoder_lengths; lia);
        destruct (parse_value f x) as [[v r3]|e]; [|exact Hv]; simpl in Hv
    end.
    decoder_cases; try decoder_done.
    eapply fine_mono; [apply IHm|]; decoder_done.
Qed.

(** [json_loads] never fails for want of fuel. *)
Lemma json_loads_fuel s : json_loads s <> Raise depth_exceeded.
Proof.
  unfold json_loads, Decoder.json_loads, mbind, result_bind.
  destruct (parse_fine (2 * String.length s + 2)) as [Hv _].
  specialize (Hv (skip_ws s)). pose proof (skip_ws_length s).
  destruct (parse_value _ (skip_ws s)) as [[v r]|e].
  - by destruct (skip_ws r).
  - simpl in Hv. intros [= ->]. apply Hv; [lia|done].
Qed.

End DecoderFacts.

(** ** Reading the reply *)

Lemma split_absent n sep s :
  Str.contains sep s = false -> Str.split_fuel n sep s = [s].
Proof.
  intros H. destruct n; simpl; [done|].
  by rewrite SplitFacts.partition_absent.
Qed.

Lemma split_json_fence rest :
  Str.contains "```json" rest = false ->
  Str.split "```json" ("```json" +:+ rest) = [EmptyString; rest].
Proof.
  intros H. unfold Str.split.
  change ("```json" +:+ rest)
    with (String "`" (String "`" (String "`" (String "j" (String "s"
            (String "o" (String "n" rest))))))).
  simpl. by rewrite SplitFacts.partition_absent.
Qed.

Lemma split_closing_fence inner :
  Str.contains "```" (inner +:+ "``") = false ->
  exists l, Str.split "```" (inner +:+ "```") = inner :: l.
Proof.
  intros H. unfold Str.split.
  rewrite StrFacts.app_length, Nat.add_comm. simpl.
  rewrite SplitFacts.partition_closing_fence by done. by eexists.
Qed.

(** The text handed to the decoder when the response is bare or wrapped
    in one fenced JSON block. *)
Lemma extract_json_wrapped raw inner :
  Str.strip raw = inner \/ Str.strip raw = "```json" +:+ inner +:+ "```" ->
  Str.contains "```" (inner +:+ "``") = false ->
  extract_json raw = Return (Str.strip inner).
Proof.
  intros [H|H] Hn; unfold extract_json; rewrite H.
  - pose proof (SplitFacts.contains_app_false _ _ _ Hn) as Hf.
    rewrite (SplitFacts.no_json_fence _ Hf), Hf.
    by rewrite <- H, SplitFacts.strip_idemp.
  - assert (Str.contains "```json" ("```json" +:+ inner +:+ "```") = true) as ->.
    { apply StrFacts.contains_occurs. by exists EmptyString, (inner +:+ "```"). }
    rewrite split_json_fence
      by by apply SplitFacts.no_json_fence_before_closing.
    unfold py_last. simpl last. cbv iota. rewrite bind_Return.
    destruct (split_closing_fence inner Hn) as [l ->]. reflexivity.
Qed.

Lemma read_reply_object raw d :
  extract_json raw ≫= json_loads = Return (JObj d) ->
  read_reply raw
  = Return (from_option id (JStr default_reply) (dict_lookup "ai_reply" d),
            from_option id JNull (dict_lookup "grammar_correction" d)).
Proof.
  unfold read_reply.
  destruct (extract_json raw) as [t|e]; [|done].
  rewrite !bind_Return. intros ->. reflexivity.
Qed.

(** C2, as stated, fails: a valid two-field object whose reply holds
    triple backquotes is cut by the extraction, and the client receives an
    error text in place of the reply. *)
Lemma backquotes_in_reply_lost :
  json_loads code_reply
  = Return (JObj [("ai_reply", JStr "Use ```print()``` here");
                  ("grammar_correction", JNull)])
  /\ provider_answer gemma_state (answering code_reply) hello
     = Some (Return code_reply)
  /\ exists description,
       (chat_endpoint gemma_state (answering code_reply) hello).2
       = OK (ChatResponse.new
               ("I'm having trouble connecting to my brain right now. Error details: "
                +:+ description) None "s1").
Proof.
  split; [(vm_compute; reflexivity)|]. split; [(vm_compute; reflexivity)|].
  eexists. (vm_compute; reflexivity).
Qed.

(** C2, amended.  When the provider answers a text that, once stripped,
    is either bare or wrapped in one fenced JSON block, and the text
    inside holds no triple backquote (and does not end in a backquote) and
    decodes to an object whose [ai_reply] is a string and whose
    [grammar_correction] is a string or null, the client receives status
    200 with these two fields as they are. *)
Theorem json_reply_returned (st : state) (w : world) (request : ChatRequest.t)
  (raw inner : string) (d : list (string * json)) (a : string)
  (g : option string) :
  provider_answer st w request = Some (Return raw) ->
  Str.strip raw = inner \/ Str.strip raw = "```json" +:+ inner +:+ "```" ->
  Str.contains "```" (inner +:+ "``") = false ->
  json_loads (Str.strip inner) = Return (JObj d) ->
  dict_lookup "ai_reply" d = Some (JStr a) ->
  dict_lookup "grammar_correction" d
  = Some (match g with Some t => JStr t | None => JNull end) ->
  (chat_endpoint st w request).2
  = OK (ChatResponse.new a g (resolve_session_id request w)).
Proof.
  intros Hp Hw Hn Hd Ha Hg.
  apply answered_provider in Hp as (c & Hans & _).
  rewrite chat_endpoint_unfold. simpl. rewrite Hans, bind_Return.
  rewrite (read_reply_object raw d).
  - rewrite Ha, Hg. simpl. by destruct g.
  - by rewrite (extract_json_wrapped raw inner), bind_Return.
Qed.

Lemma json_reply_returned_witness :
  provider_answer gemma_state (answering fenced_hi) hello
  = Some (Return fenced_hi)
  /\ Str.strip fenced_hi
     = "```json" +:+ (Str.newline +:+ hi_object +:+ Str.newline) +:+ "```"
  /\ Str.contains "```" ((Str.newline +:+ hi_object +:+ Str.newline) +:+ "``")
     = false
  /\ json_loads (Str.strip (Str.newline +:+ hi_object +:+ Str.newline))
     = Return (JObj [("ai_reply", JStr "hi"); ("grammar_correction", JNull)])
  /\ (chat_endpoint gemma_state (answering fenced_hi) hello).2
     = OK (ChatResponse.new "hi" None "s1")
  /\ provider_answer gemma_state (answering plain_ok) hello
     = Some (Return plain_ok)
  /\ Str.strip plain_ok = plain_ok
  /\ Str.contains "```" (plain_ok +:+ "``") = false
  /\ json_loads (Str.strip plain_ok)
     = Return (JObj [("ai_reply", JStr "ok");
                     ("grammar_correction", JStr "fix x")])
  /\ (chat_endpoint gemma_state (answering plain_ok) hello).2
     = OK (ChatResponse.new "ok" (Some "fix x") "s1").
Proof.
  do 4 (split; [vm_compute; reflexivity|]).
  split.
  - apply (json_reply_returned gemma_state (answering fenced_hi) hello
             fenced_hi (Str.newline +:+ hi_object +:+ Str.newline)
             [("ai_reply", JStr "hi"); ("grammar_correction", JNull)]
             "hi" None);
      try (vm_compute; reflexivity).
    right. vm_compute. reflexivity.
  - do 4 (split; [vm_compute; reflexivity|]).
    apply (json_reply_returned gemma_state (answering plain_ok) hello
             plain_ok plain_ok
             [("ai_reply", JStr "ok"); ("grammar_correction", JStr "fix x")]
             "ok" (Some "fix x"));
      try (vm_compute; reflexivity).
    left. vm_compute. reflexivity.
Defined.

(** A fenced block without the [json] tag is not read: the text kept is
    what follows the closing fence. *)
Example plain_fence_not_read :
  extract_json plain_fenced_hi = Return EmptyString
  /\ exists description,
       (chat_endpoint gemma_state (answering plain_fenced_hi) hello).2
       = OK (ChatResponse.new
               ("I'm having trouble connecting to my brain right now. Error details: "
                +:+ description) None "s1").
Proof.
  split; [(vm_compute; reflexivity)|]. eexists. (vm_compute; reflexivity).
Qed.

(** C6, as stated, fails: a response that decodes to a JSON value other
    than an object has no [ai_reply] field, and the reply is the error
    text, not the default. *)
Lemma array_reply_not_defaulted :
  json_loads "[]" = Return (JArr [])
  /\ provider_answer gemma_state (answering "[]") hello = Some (Return "[]")
  /\ (chat_endpoint gemma_state (answering "[]") hello).2
     = OK (ChatResponse.new
             "I'm having trouble connecting to my brain right now. Error details: 'list' object has no attribute 'get'"
             None "s1").
Proof.
  split; [(vm_compute; reflexivity)|]. split; (vm_compute; reflexivity).
Qed.

(** C6, amended.  When the text extracted from the provider response
    decodes to a JSON object: without an [ai_reply] field the reply of the
    handler is the default sentence, and the client receives it with
    status 200 when [grammar_correction] is absent, null or a string;
    without a [grammar_correction] field the feedback of the handler is
    null, and the client receives it with status 200 when [ai_reply] is
    absent or a string. *)
Theorem missing_fields_defaulted (st : state) (w : world)
  (request : ChatRequest.t) (raw : string) (d : list (string * json)) :
  provider_answer st w request = Some (Return raw) ->
  extract_json raw ≫= json_loads = Return (JObj d) ->
  (dict_lookup "ai_reply" d = None ->
   (answered st w request).1.2 = JStr "I'm sorry, I didn't catch that."
   /\ (optional_str (dict_lookup "grammar_correction" d) ->
       exists body,
         (chat_endpoint st w request).2 = OK body
         /\ ChatResponse.ai_reply body = "I'm sorry, I didn't catch that."))
  /\ (dict_lookup "grammar_correction" d = None ->
      (answered st w request).2 = JNull
      /\ (defaulted_str (dict_lookup "ai_reply" d) ->
          exists body,
            (chat_endpoint st w request).2 = OK body
            /\ ChatResponse.grammar_correction body = None)).
Proof.
  intros Hp Hd.
  apply answered_provider in Hp as (c & Hans & _).
  rewrite bind_Return, (read_reply_object raw d Hd) in Hans.
  rewrite chat_endpoint_unfold, Hans. simpl.
  split; intros ->; simpl; (split; [done|]).
  - destruct (dict_lookup "grammar_correction" d) as [[]|]; simpl; try done;
      intros _; eexists; by split.
  - destruct (dict_lookup "ai_reply" d) as [[]|]; simpl; try done;
      intros _; eexists; by split.
Qed.

Lemma missing_fields_defaulted_witness :
  provider_answer gemma_state (answering "{}") hello = Some (Return "{}")
  /\ extract_json "{}" ≫= json_loads = Return (JObj [])
  /\ exists body,
       (chat_endpoint gemma_state (answering "{}") hello).2 = OK body
       /\ ChatResponse.ai_reply body = "I'm sorry, I didn't catch that.".
Proof.
  assert (H1 : provider_answer gemma_state (answering "{}") hello
               = Some (Return "{}")) by (vm_compute; reflexivity).
  assert (H2 : extract_json "{}" ≫= json_loads = Return (JObj []))
    by (vm_compute; reflexivity).
  split; [exact H1|]. split; [exact H2|].
  destruct (missing_fields_defaulted _ _ _ _ _ H1 H2) as [H _].
  destruct (H eq_refl) as [_ Hb]. apply Hb. exact I.
Defined.

(** ** More on the history *)

Lemma last_n_app_r {A : Type} n (l k : list A) :
  last_n (n + length k) (l ++ k) = last_n n l ++ k.
Proof.
  unfold last_n. rewrite length_app.
  replace (length l + length k - (n + length k)) with (length l - n) by lia.
  apply drop_app_le. lia.
Qed.

(** X1.  What [manage_history] does to a store: the session exists
    afterwards and its last entry is the new message; below 20 entries
    the message is simply appended; from 20 entries on, only the last 19
    old entries are kept before it; the new length is the old one plus
    one, capped at 20; no other session changes. *)
Theorem manage_history_appends (session_id : string) (msg : message)
  (c : gmap string (list message)) :
  let old := default [] (c !! session_id) in
  let new := default [] (manage_history session_id msg c !! session_id) in
  is_Some (manage_history session_id msg c !! session_id)
  /\ last new = Some msg
  /\ (length old < 20 -> new = old ++ [msg])
  /\ (20 <= length old -> new = last_n 19 old ++ [msg])
  /\ length new = min 20 (length old + 1)
  /\ (forall other, other <> session_id ->
        manage_history session_id msg c !! other = c !! other).
Proof.
  cbv zeta. rewrite manage_history_lookup. simpl.
  split; [by eexists|]. split; [|split; [|split; [|split]]].
  - rewrite last_n_last by lia. apply last_snoc.
  - intros H. apply last_n_short. rewrite length_app. simpl. lia.
  - intros _. apply (last_n_app_r 19 _ [msg]).
  - rewrite last_n_length, length_app. simpl. lia.
  - intros other H. by apply manage_history_other.
Qed.

Lemma manage_history_appends_witness :
  length (default [] ((∅ : gmap string (list message)) !! "s1")) < 20
  /\ default [] (manage_history "s1" (Message "user" [JStr "Hello"]) ∅ !! "s1")
     = [Message "user" [JStr "Hello"]].
Proof.
  split; [vm_compute; lia|].
  destruct (manage_history_appends "s1" (Message "user" [JStr "Hello"]) ∅)
    as (_ & _ & H & _).
  apply H. vm_compute. lia.
Defined.

Lemma manage_history_dom sid msg (c : gmap string (list message)) :
  dom (manage_history sid msg c) = dom c ∪ {[sid]}.
Proof.
  apply set_eq. intros k. rewrite elem_of_union, elem_of_singleton, !elem_of_dom.
  destruct (decide (k = sid)) as [->|Hne].
  - rewrite manage_history_lookup. split; [by right|by eexists].
  - rewrite manage_history_other by done. split; [by left|by intros [?|?]].
Qed.

(** X2.  Sessions are created on demand and never removed: a request
    leaves every session of the store in place and adds the one it
    resolves to, and the sessions of a state are still there after any
    run. *)
Theorem sessions_never_removed (st : state) (w : world)
  (request : ChatRequest.t) (evs : list (world * ChatRequest.t)) :
  dom (conversations (chat_endpoint st w request).1.1)
  = dom (conversations st) ∪ {[resolve_session_id request w]}
  /\ dom (conversations st) ⊆ dom (conversations (run st evs)).
Proof.
  split.
  - rewrite chat_endpoint_unfold. simpl. unfold with_user_turn.
    rewrite !manage_history_dom.
    by rewrite <- union_assoc_L, union_idemp_L.
  - revert st. induction evs as [|[w' request'] evs IH]; intros st; [done|].
    rewrite run_cons. etrans; [|apply IH].
    rewrite chat_endpoint_unfold. simpl. unfold with_user_turn.
    rewrite !manage_history_dom.
    etrans; [|apply union_subseteq_l]. apply union_subseteq_l.
Qed.

Lemma history_bounded_length boot evs sid :
  length (history (run (bootstrap boot) evs) sid) <= 20.
Proof.
  rewrite history_run.
  - rewrite last_n_length. lia.
  - unfold history. rewrite bootstrap_conversations, lookup_empty. simpl. lia.
Qed.

Lemma exchanges_app a b : exchanges a -> exchanges b -> exchanges (a ++ b).
Proof. induction 1; intros Hb; simpl; [done|]. constructor; auto. Qed.

Lemma exchanges_even h : exchanges h -> exists k, length h = 2 * k.
Proof.
  induction 1 as [|u m h _ _ _ [k IH]]; [by exists 0|].
  exists (S k). simpl. lia.
Qed.

Lemma exchanges_drop h k : exchanges h -> exchanges (drop (2 * k) h).
Proof.
  intros H. revert k. induction H as [|u m h Hu Hm Hh IH]; intros k.
  - rewrite drop_nil. constructor.
  - destruct k as [|k]; [by constructor|].
    replace (2 * S k) with (S (S (2 * k))) by lia. simpl. apply IH.
Qed.

Lemma exchanges_last_n h : exchanges h -> exchanges (last_n 20 h).
Proof.
  intros H. unfold last_n. destruct (exchanges_even h H) as [k Hk].
  replace (length h - 20) with (2 * (k - 10)) by lia.
  by apply exchanges_drop.
Qed.

Lemma history_in_exchanges_run boot evs sid :
  exchanges (history (run (bootstrap boot) evs) sid).
Proof.
  assert (H0 : exchanges (history (bootstrap boot) sid)).
  { unfold history. rewrite bootstrap_conversations, lookup_empty. constructor. }
  revert H0. generalize (bootstrap boot).
  induction evs as [|[w request] evs IH]; intros st Hst; [done|].
  rewrite run_cons. apply IH.
  destruct (decide ((exchange st w request).1 = sid)) as [<-|Hne].
  - rewrite history_step_same. apply exchanges_last_n, exchanges_app; [done|].
    by repeat constructor.
  - by rewrite history_step_other.
Qed.

(** X3.  Between two requests every stored history is made of whole
    exchanges: it starts with a user turn, the roles alternate, and it
    ends with a model turn; its length is even, at most 20. *)
Theorem history_in_exchanges (boot : startup)
  (evs : list (world * ChatRequest.t)) (session_id : string) :
  exchanges (history (run (bootstrap boot) evs) session_id)
  /\ exists k, k <= 10
       /\ length (history (run (bootstrap boot) evs) session_id) = 2 * k.
Proof.
  pose proof (history_in_exchanges_run boot evs session_id) as H.
  split; [exact H|].
  destruct (exchanges_even _ H) as [k Hk]. exists k. split; [|done].
  pose proof (history_bounded_length boot evs session_id). lia.
Qed.

(** ** What the provider is sent *)

Lemma render_all_app a b :
  render_all (a ++ b)
  = (xs ← render_all a; ys ← render_all b; Return (xs ++ ys)).
Proof.
  induction a as [|msg a IH]; simpl.
  - by destruct (render_all b).
  - destruct (render_message msg) as [x|e]; [|done].
    rewrite !bind_Return, IH.
    destruct (render_all a) as [xs|e]; [|done]. rewrite !bind_Return.
    by destruct (render_all b).
Qed.

Lemma render_all_snoc pre msg lines :
  render_all (pre ++ [msg]) = Return lines ->
  exists xs x,
    render_all pre = Return xs /\ render_message msg = Return x
    /\ lines = xs ++ [x].
Proof.
  rewrite render_all_app.
  destruct (render_all pre) as [xs|e]; [|done]. rewrite bind_Return. simpl.
  destruct (render_message msg) as [x|e]; [|done]. rewrite !bind_Return.
  intros [= <-]. by exists xs, x.
Qed.


Lemma with_user_turn_lookup st w request :
  with_user_turn st w request !! resolve_session_id request w
  = Some (last_n 20
            (history st (resolve_session_id request w)
             ++ [Message "user" [JStr (ChatRequest.user_message request)]])).
Proof. unfold with_user_turn. by rewrite manage_history_lookup. Qed.

Lemma cons_middle3 {A : Type} (l : list A) a b c :
  l ++ [a; b; c] = (l ++ [a]) ++ [b; c].
Proof. by rewrite <- app_assoc. Qed.

Lemma join_snoc2 sep xs a b :
  exists ctx, Str.join sep (xs ++ [a; b]) = ctx +:+ a +:+ sep +:+ b.
Proof.
  induction xs as [|y xs [ctx IH]].
  - by exists EmptyString.
  - exists (y +:+ sep +:+ ctx).
    change ((y :: xs) ++ [a; b]) with (y :: (xs ++ [a; b])).
    destruct (xs ++ [a; b]) as [|z l] eqn:E.
    + by destruct xs.
    + change (Str.join sep (y :: z :: l))
        with (y +:+ sep +:+ Str.join sep (z :: l)).
      by rewrite IH, !StrFacts.app_assoc.
Qed.

Lemma join_cons sep x xs :
  exists rest, Str.join sep (x :: xs) = x +:+ rest.
Proof.
  destruct xs as [|y xs].
  - exists EmptyString. by rewrite StrFacts.app_nil_r.
  - by eexists.
Qed.

(** The prompt built over a stored history. *)
Lemma full_prompt_lines mode sid convs h prompt :
  convs !! sid = Some h ->
  full_prompt mode sid convs = Return prompt ->
  exists lines,
    render_all h = Return lines
    /\ prompt
       = system_prompt mode +:+ Str.newline +:+ Str.newline
         +:+ "Conversation History:" +:+ Str.newline
         +:+ Str.join Str.newline lines
         +:+ Str.newline +:+ Str.newline
         +:+ "Respond ONLY in valid JSON format.".
Proof.
  intros Hc. unfold full_prompt. rewrite Hc.
  destruct (render_all h) as [lines|e]; [|done].
  rewrite bind_Return. intros [= <-]. by exists lines.
Qed.

Lemma render_all_length h lines :
  render_all h = Return lines -> length lines = length h.
Proof.
  revert lines. induction h as [|msg h IH]; intros lines; simpl.
  - by intros [= <-].
  - destruct (render_message msg) as [x|e]; [|done]. rewrite bind_Return.
    destruct (render_all h) as [xs|e]; [|done]. rewrite bind_Return.
    intros [= <-]. simpl. by rewrite (IH xs).
Qed.

(** The prompt of a call is built over the history as it stands once the
    user turn is in. *)
Lemma call_prompt_lines st w request c :
  c ∈ (chat_endpoint st w request).1.2 ->
  exists lines,
    render_all
      (last_n 20
         (history st (resolve_session_id request w)
          ++ [Message "user" [JStr (ChatRequest.user_message request)]]))
    = Return lines
    /\ call_prompt c
       = system_prompt (resolve_mode request) +:+ Str.newline +:+ Str.newline
         +:+ "Conversation History:" +:+ Str.newline
         +:+ Str.join Str.newline lines
         +:+ Str.newline +:+ Str.newline
         +:+ "Respond ONLY in valid JSON format.".
Proof.
  rewrite chat_endpoint_unfold. simpl.
  intros (_ & _ & Hp)%answered_calls.
  exact (full_prompt_lines _ _ _ _ _ (with_user_turn_lookup st w request) Hp).
Qed.






(** *** The bound at every append *)

Lemma with_user_turn_other st w request sid :
  resolve_session_id request w <> sid ->
  with_user_turn st w request !! sid = conversations st !! sid.
Proof. intros H. unfold with_user_turn. by rewrite manage_history_other. Qed.

Lemma history_log boot evs sid :
  history (run (bootstrap boot) evs) sid = last_n 20 (log (bootstrap boot) evs sid).
Proof.
  rewrite history_run.
  - unfold history. by rewrite bootstrap_conversations, lookup_empty.
  - unfold history. rewrite bootstrap_conversations, lookup_empty. simpl. lia.
Qed.

(** C1.  Whatever the startup and whatever requests follow, and for every
    session id: the stored history never has more than 20 entries; it is
    made of the 20 most recent turns added to that session (all of them
    while there are at most 20), in the order they were added.  The bound
    holds at every append, not only between two requests: once the user
    turn of a further request is in, the history of its session is again
    the last 20 of the turns so far, no stored history exceeds 20, and the
    prompt sent to the provider shows at most 20 lines; and whatever the
    store, [manage_history] leaves the last 20 of the old entries followed
    by the new one, exactly 20 of them when the old history had 20 or
    more. *)
Theorem history_bounded (boot : startup) (evs : list (world * ChatRequest.t))
  (session_id : string) :
  let st := run (bootstrap boot) evs in
  let turns := log (bootstrap boot) evs session_id in
  length (history st session_id) <= 20
  /\ history st session_id = last_n 20 turns
  /\ history st session_id `suffix_of` turns
  /\ length (history st session_id) = min 20 (length turns)
  /\ (forall (w : world) (request : ChatRequest.t),
        let user_turn :=
          Message "user" [JStr (ChatRequest.user_message request)] in
        let added :=
          if String.eqb (resolve_session_id request w) session_id
          then [user_turn] else [] in
        with_user_turn st w request !! resolve_session_id request w
        = Some (last_n 20 (history st (resolve_session_id request w)
                           ++ [user_turn]))
        /\ default [] (with_user_turn st w request !! session_id)
           = last_n 20 (turns ++ added)
        /\ length (default [] (with_user_turn st w request !! session_id)) <= 20
        /\ forall c, c ∈ (chat_endpoint st w request).1.2 ->
             exists lines,
               length lines <= 20
               /\ call_prompt c
                  = system_prompt (resolve_mode request)
                    +:+ Str.newline +:+ Str.newline
                    +:+ "Conversation History:" +:+ Str.newline
                    +:+ Str.join Str.newline lines
                    +:+ Str.newline +:+ Str.newline
                    +:+ "Respond ONLY in valid JSON format.")
  /\ (forall (c : gmap string (list message)) (msg : message),
        let old := default [] (c !! session_id) in
        let new := default [] (manage_history session_id msg c !! session_id) in
        new = last_n 20 (old ++ [msg])
        /\ new `suffix_of` old ++ [msg]
        /\ length new = min 20 (length old + 1)
        /\ (20 <= length old ->
            length new = 20 /\ new = drop (length old - 19) old ++ [msg])).
Proof.
  intros st turns.
  assert (Hh : forall sid, history st sid = last_n 20 (log (bootstrap boot) evs sid)).
  { intros sid. apply history_log. }
  rewrite (Hh session_id). fold turns. rewrite last_n_length.
  split; [lia|]. split; [done|]. split; [apply last_n_suffix|].
  split; [lia|]. split.
  - intros w request user_turn added.
    pose proof (with_user_turn_lookup st w request) as Hl. fold user_turn in Hl.
    split; [exact Hl|].
    assert (Hmid : default [] (with_user_turn st w request !! session_id)
                   = last_n 20 (turns ++ added)).
    { subst added.
      destruct (String.eqb_spec (resolve_session_id request w) session_id)
        as [Heq|Hne].
      - rewrite <- Heq, Hl. simpl. rewrite Hh, last_n_app.
        subst turns. by rewrite Heq.
      - rewrite with_user_turn_other by done.
        rewrite app_nil_r. apply (Hh session_id). }
    split; [exact Hmid|]. split.
    + rewrite Hmid, last_n_length. lia.
    + intros c (lines & Hr & Hp)%call_prompt_lines.
      exists lines. split; [|exact Hp].
      rewrite (render_all_length _ _ Hr), last_n_length. lia.
  - intros c msg old new. subst old new.
    rewrite manage_history_lookup. cbn [from_option id].
    split; [done|]. split; [apply last_n_suffix|].
    rewrite last_n_length, length_app. cbn [length]. split; [lia|].
    intros Hlen. split; [lia|].
    exact (last_n_app_r 19 _ [msg]).
Qed.

Lemma history_bounded_witness :
  20 <= length (default []
                  (conversations
                     (run (bootstrap (sample_startup ["models/gemma-3-27b-it"]))
                        ten_requests) !! "s1"))
  /\ length (default []
               (manage_history "s1" (Message "user" [JStr "Hello"])
                  (conversations
                     (run (bootstrap (sample_startup ["models/gemma-3-27b-it"]))
                        ten_requests)) !! "s1")) = 20.
Proof.
  assert (H : 20 <= length (default []
                (conversations
                   (run (bootstrap (sample_startup ["models/gemma-3-27b-it"]))
                      ten_requests) !! "s1"))) by (vm_compute; lia).
  split; [exact H|].
  destruct (history_bounded (sample_startup ["models/gemma-3-27b-it"]) [] "s1")
    as (_ & _ & _ & _ & _ & Happend).
  destruct (Happend (conversations
                       (run (bootstrap (sample_startup ["models/gemma-3-27b-it"]))
                          ten_requests))
              (Message "user" [JStr "Hello"])) as (_ & _ & _ & H20).
  exact (proj1 (H20 H)).
Defined.

(** X5.  The reply a client received is what the model reads next: on
    the following request to the session the response named, the history
    in the prompt ends with that reply as a MODEL line and then the new
    message as a USER line.  An error text returned as a reply is fed
    back in the same way. *)
Theorem reply_fed_back (st : state) (w1 : world) (request1 : ChatRequest.t)
  (w2 : world) (request2 : ChatRequest.t) (body : ChatResponse.t) (c : call) :
  (chat_endpoint st w1 request1).2 = OK body ->
  resolve_session_id request2 w2 = ChatResponse.session_id body ->
  c ∈ (chat_endpoint (chat_endpoint st w1 request1).1.1 w2 request2).1.2 ->
  exists context,
    call_prompt c
    = system_prompt (resolve_mode request2) +:+ Str.newline +:+ Str.newline
      +:+ "Conversation History:" +:+ Str.newline
      +:+ context +:+ "MODEL: " +:+ ChatResponse.ai_reply body +:+ Str.newline
      +:+ "USER: " +:+ ChatRequest.user_message request2
      +:+ Str.newline +:+ Str.newline
      +:+ "Respond ONLY in valid JSON format.".
Proof.
  intros Hb Hsid.
  rewrite chat_endpoint_unfold in Hb. simpl in Hb.
  apply validate_OK in Hb as (Ha & Hs & _).
  rewrite (chat_endpoint_unfold _ w2). simpl.
  intros (_ & _ & Hp)%answered_calls.
  pose proof (with_user_turn_lookup (chat_endpoint st w1 request1).1.1
                w2 request2) as Hl.
  rewrite Hsid, Hs in Hl.
  pose proof (history_step_same st w1 request1) as Hh.
  unfold exchange in Hh. simpl in Hh. rewrite Hh, Ha in Hl. clear Hh.
  rewrite last_n_app, <- !app_assoc in Hl. simpl in Hl.
  rewrite (cons_middle3 _ _ _ _) in Hl.
  rewrite (last_n_app_r 18 _ [_; _]) in Hl.
  rewrite Hsid, Hs in Hp.
  destruct (full_prompt_lines _ _ _ _ _ Hl Hp) as (lines & Hr & ->).
  change [?a; ?b] with ([a] ++ [b]) in Hr. rewrite app_assoc in Hr.
  apply render_all_snoc in Hr as (xs & x & Hr & Hx & ->).
  apply render_all_snoc in Hr as (xs' & x' & _ & Hx' & ->).
  assert (x = "USER: " +:+ ChatRequest.user_message request2) as ->
    by (injection Hx as <-; reflexivity).
  assert (x' = "MODEL: " +:+ ChatResponse.ai_reply body) as ->
    by (injection Hx' as <-; reflexivity).
  rewrite <- app_assoc. simpl.
  destruct (join_snoc2 Str.newline xs'
              ("MODEL: " +:+ ChatResponse.ai_reply body)
              ("USER: " +:+ ChatRequest.user_message request2)) as [ctx ->].
  exists ctx. by rewrite !StrFacts.app_assoc.
Qed.

Lemma reply_fed_back_witness :
  (chat_endpoint gemma_state (answering plain_ok) hello).2
  = OK (ChatResponse.new "ok" (Some "fix x") "s1")
  /\ resolve_session_id hello (answering "{}") = "s1"
  /\ exists c context,
       c ∈ (chat_endpoint
              (chat_endpoint gemma_state (answering plain_ok) hello).1.1
              (answering "{}") hello).1.2
       /\ call_prompt c
          = CHAT_PROMPT +:+ Str.newline +:+ Str.newline
            +:+ "Conversation History:" +:+ Str.newline
            +:+ context +:+ "MODEL: ok" +:+ Str.newline
            +:+ "USER: Hello"
            +:+ Str.newline +:+ Str.newline
            +:+ "Respond ONLY in valid JSON format.".
Proof.
  assert (H1 : (chat_endpoint gemma_state (answering plain_ok) hello).2
               = OK (ChatResponse.new "ok" (Some "fix x") "s1"))
    by (vm_compute; reflexivity).
  assert (H2 : resolve_session_id hello (answering "{}") = "s1")
    by reflexivity.
  split; [exact H1|]. split; [exact H2|].
  destruct (provider_called (sample_startup ["models/gemma-3-27b-it"])
              [(answering plain_ok, hello)] (answering "{}") hello
              {| model_name := "models/gemma-3-27b-it" |} eq_refl)
    as [prompt Hp].
  apply answered_provider in Hp as (c & Hc & _).
  assert (Hin : c ∈ (chat_endpoint
                       (chat_endpoint gemma_state (answering plain_ok) hello).1.1
                       (answering "{}") hello).1.2).
  { change (chat_endpoint gemma_state (answering plain_ok) hello).1.1
      with (run (bootstrap (sample_startup ["models/gemma-3-27b-it"]))
              [(answering plain_ok, hello)]).
    rewrite chat_endpoint_unfold. cbn [fst snd]. rewrite Hc. destruct (_ ≫= read_reply) as [[a g]|e]; apply list_elem_of_here. }
  exists c.
  destruct (reply_fed_back _ _ _ _ _ _ c H1 H2 Hin) as [context Hctx].
  exists context. split; [exact Hin|exact Hctx].
Defined.

(** X6.  When the session already holds 20 entries, the user turn of the
    request pushes the oldest user turn out before the prompt is built:
    the history the provider reads then starts with a MODEL line, the
    reply to a message it no longer sees. *)
Theorem full_session_prompt_starts_with_reply (boot : startup)
  (evs : list (world * ChatRequest.t)) (w : world) (request : ChatRequest.t)
  (c : call) :
  length (history (run (bootstrap boot) evs) (resolve_session_id request w))
  = 20 ->
  c ∈ (chat_endpoint (run (bootstrap boot) evs) w request).1.2 ->
  exists rest,
    call_prompt c
    = system_prompt (resolve_mode request) +:+ Str.newline +:+ Str.newline
      +:+ "Conversation History:" +:+ Str.newline
      +:+ "MODEL: " +:+ rest.
Proof.
  intros Hlen. rewrite chat_endpoint_unfold. simpl.
  intros (_ & _ & Hp)%answered_calls.
  pose proof (with_user_turn_lookup (run (bootstrap boot) evs) w request) as Hl.
  destruct (history_in_exchanges_run boot evs (resolve_session_id request w))
    as [|u m h Hu Hm _]; [done|].
  unfold last_n in Hl. rewrite length_app, Hlen in Hl. simpl in Hl.
  destruct (full_prompt_lines _ _ _ _ _ Hl Hp) as (lines & Hr & ->).
  simpl in Hr. unfold render_message at 1 in Hr. rewrite Hm in Hr.
  destruct (py_first (parts m)) as [p|e]; [|done].
  rewrite !bind_Return in Hr.
  destruct (render_all (h ++ _)) as [xs|e]; [|done].
  rewrite bind_Return in Hr. injection Hr as <-.
  destruct (join_cons Str.newline ("MODEL: " +:+ py_str p) xs) as [rest Hj].
  change (Str.upper "model" +:+ ": " +:+ py_str p)
    with ("MODEL: " +:+ py_str p).
  rewrite Hj. exists (py_str p +:+ rest +:+ Str.newline +:+ Str.newline
                      +:+ "Respond ONLY in valid JSON format.").
  by rewrite !StrFacts.app_assoc.
Qed.

Lemma full_session_prompt_starts_with_reply_witness :
  length (history (run (bootstrap (sample_startup ["models/gemma-3-27b-it"]))
                     ten_requests)
            (resolve_session_id hello (answering "{}"))) = 20
  /\ exists c rest,
       c ∈ (chat_endpoint
              (run (bootstrap (sample_startup ["models/gemma-3-27b-it"]))
                 ten_requests) (answering "{}") hello).1.2
       /\ call_prompt c
          = CHAT_PROMPT +:+ Str.newline +:+ Str.newline
            +:+ "Conversation History:" +:+ Str.newline
            +:+ "MODEL: " +:+ rest.
Proof.
  assert (H1 : length (history
                         (run (bootstrap (sample_startup ["models/gemma-3-27b-it"]))
                            ten_requests)
                         (resolve_session_id hello (answering "{}"))) = 20)
    by (vm_compute; reflexivity).
  split; [exact H1|].
  destruct (provider_called (sample_startup ["models/gemma-3-27b-it"])
              ten_requests (answering "{}") hello
              {| model_name := "models/gemma-3-27b-it" |} eq_refl)
    as [prompt Hp].
  apply answered_provider in Hp as (c & Hc & _).
  assert (Hin : c ∈ (chat_endpoint
                       (run (bootstrap (sample_startup ["models/gemma-3-27b-it"]))
                          ten_requests) (answering "{}") hello).1.2).
  { rewrite chat_endpoint_unfold. cbn [fst snd]. rewrite Hc.
    destruct (_ ≫= read_reply) as [[a g]|e]; apply list_elem_of_here. }
  exists c.
  destruct (full_session_prompt_starts_with_reply _ _ _ _ c H1 Hin)
    as [rest Hrest].
  exists rest. split; [exact Hin|exact Hrest].
Defined.

(** ** More on the bootstrap *)

(** X7.  The model the bootstrap settles on is always one the provider
    listed; only an empty listing gives the default identifier, which the
    provider did not list. *)
Theorem selected_model_is_listed (available_models : list string)
  (target_model : string) :
  select_model available_models = Some target_model ->
  target_model ∈ available_models
  \/ (available_models = [] /\ target_model = "models/gemini-1.5-flash").
Proof.
  rewrite select_model_spec. intros [= <-]. unfold select_spec.
  destruct (find _ priority_models) as [p|] eqn:Hp.
  - apply find_some in Hp as [_ Hp]. left. by apply bool_decide_eq_true in Hp.
  - destruct (find _ available_models) as [m|] eqn:Hm.
    + apply find_some in Hm as [Hin _]. left. by apply list_elem_of_In.
    + destruct available_models as [|m ms]; [by right|].
      left. apply list_elem_of_here.
Qed.

Lemma selected_model_is_listed_witness :
  select_model ["models/text-bison"; "models/gemma-2b-it"]
  = Some "models/gemma-2b-it"
  /\ ("models/gemma-2b-it" ∈ ["models/text-bison"; "models/gemma-2b-it"]
      \/ (["models/text-bison"; "models/gemma-2b-it"] = []
          /\ "models/gemma-2b-it" = "models/gemini-1.5-flash")).
Proof.
  assert (H : select_model ["models/text-bison"; "models/gemma-2b-it"]
              = Some "models/gemma-2b-it") by reflexivity.
  split; [exact H|]. exact (selected_model_is_listed _ _ H).
Defined.

(** X8.  The two globals are not set together.  When building the handle
    raises after the selection, the identifier of the selected model is
    recorded while the handle stays unset, and the server answers in mock
    mode; after a failure of [configure] or of the listing the identifier
    is still the empty string. *)
Theorem bootstrap_partial_failure (w : startup) (c : ascii) (key : string) :
  py_or (env_GOOGLE_API_KEY w) (env_GEMINI_API_KEY w) = Some (String c key) ->
  (forall available e,
     configure w (String c key) = Return () ->
     list_models w = Return available ->
     new_model w (select_spec available) = Raise e ->
     model (bootstrap w) = None
     /\ TARGET_MODEL_NAME (bootstrap w) = select_spec available)
  /\ (forall e, configure w (String c key) = Raise e ->
        model (bootstrap w) = None
        /\ TARGET_MODEL_NAME (bootstrap w) = EmptyString)
  /\ (forall e, list_models w = Raise e ->
        model (bootstrap w) = None
        /\ TARGET_MODEL_NAME (bootstrap w) = EmptyString).
Proof.
  intros Hk. unfold bootstrap. rewrite Hk. simpl Str.truthy. cbv iota.
  split; [|split].
  - intros available e -> -> He. by rewrite select_model_spec, He.
  - by intros e ->.
  - intros e ->. by destruct (configure w (String c key)).
Qed.

Lemma bootstrap_partial_failure_witness :
  py_or (env_GOOGLE_API_KEY (failing_constructor ["models/gemma-3-4b-it"]))
    (env_GEMINI_API_KEY (failing_constructor ["models/gemma-3-4b-it"]))
  = Some "key"
  /\ configure (failing_constructor ["models/gemma-3-4b-it"]) "key" = Return ()
  /\ list_models (failing_constructor ["models/gemma-3-4b-it"])
     = Return ["models/gemma-3-4b-it"]
  /\ new_model (failing_constructor ["models/gemma-3-4b-it"])
       (select_spec ["models/gemma-3-4b-it"])
     = Raise (ProviderError "invalid model name")
  /\ model (bootstrap (failing_constructor ["models/gemma-3-4b-it"])) = None
  /\ TARGET_MODEL_NAME (bootstrap (failing_constructor ["models/gemma-3-4b-it"]))
     = "models/gemma-3-4b-it".
Proof.
  assert (H : py_or (env_GOOGLE_API_KEY (failing_constructor ["models/gemma-3-4b-it"]))
                (env_GEMINI_API_KEY (failing_constructor ["models/gemma-3-4b-it"]))
              = Some "key") by reflexivity.
  do 4 (split; [reflexivity|]).
  destruct (bootstrap_partial_failure
              (failing_constructor ["models/gemma-3-4b-it"]) "k" "ey" H)
    as (H1 & _).
  exact (H1 ["models/gemma-3-4b-it"] (ProviderError "invalid model name")
           eq_refl eq_refl eq_refl).
Defined.

(** ** More on the extraction *)

Module ExtractFacts.

Lemma skip_app p r : Str.skip (String.length p) (p +:+ r) = r.
Proof. induction p as [|c p IH]; [done|]. by rewrite StrFacts.app_cons. Qed.

Lemma starts_with_skip sep s :
  Str.starts_with sep s = true -> s = sep +:+ Str.skip (String.length sep) s.
Proof.
  intros [r ->]%StrFacts.starts_with_inv. by rewrite skip_app.
Qed.

(** What [partition] returns puts the text back together. *)
Lemma partition_app sep s b a :
  Str.partition sep s = Some (b, a) -> s = b +:+ sep +:+ a.
Proof.
  revert b. induction s as [|c s IH]; intros b.
  - simpl. destruct (Str.starts_with sep EmptyString) eqn:Hp; [|done].
    intros [= <- <-]. by apply starts_with_skip.
  - rewrite SplitFacts.partition_cons.
    destruct (Str.starts_with sep (String c s)) eqn:Hp.
    + intros [= <- <-]. by apply starts_with_skip.
    + destruct (Str.partition sep s) as [[b' a']|]; [|done].
      intros [= <- <-]. by rewrite (IH b' eq_refl) at 1.
Qed.

Lemma contains_nil sep : sep <> EmptyString -> Str.contains sep EmptyString = false.
Proof. by destruct sep. Qed.

(** The text before the first occurrence holds no occurrence. *)
Lemma partition_before sep s b a :
  sep <> EmptyString ->
  Str.partition sep s = Some (b, a) -> Str.contains sep b = false.
Proof.
  intros Hsep. revert b. induction s as [|c s IH]; intros b.
  - simpl. destruct (Str.starts_with sep EmptyString); [|done].
    intros [= <- <-]. by apply contains_nil.
  - rewrite SplitFacts.partition_cons.
    destruct (Str.starts_with sep (String c s)) eqn:Hp.
    + intros [= <- <-]. by apply contains_nil.
    + destruct (Str.partition sep s) as [[b' a']|] eqn:Hq; [|done].
      intros [= <- <-]. rewrite SplitFacts.contains_cons.
      rewrite (IH b' eq_refl).
      destruct (Str.starts_with sep (String c b')) eqn:Hb; [|done].
      apply StrFacts.starts_with_inv in Hb as [r Hr].
      apply partition_app in Hq.
      rewrite Hq, <- StrFacts.app_cons, Hr, StrFacts.app_assoc in Hp.
      by rewrite StrFacts.starts_with_app in Hp.
Qed.

Lemma partition_none sep s :
  Str.partition sep s = None -> Str.contains sep s = false.
Proof.
  induction s as [|c s IH].
  - simpl. by destruct (Str.starts_with sep EmptyString).
  - rewrite SplitFacts.partition_cons, SplitFacts.contains_cons.
    destruct (Str.starts_with sep (String c s)); [done|].
    destruct (Str.partition sep s) as [[b a]|]; [done|]. auto.
Qed.

(** [split] never returns an empty list, and its first segment holds no
    separator. *)
Lemma split_first sep s :
  sep <> EmptyString ->
  exists b l, Str.split sep s = b :: l /\ Str.contains sep b = false.
Proof.
  intros Hsep. unfold Str.split. destruct s as [|c s].
  - exists EmptyString, []. split; [done|by apply contains_nil].
  - cbn [String.length Str.split_fuel].
    destruct (Str.partition sep (String c s)) as [[b a]|] eqn:Hp.
    + exists b. eexists. split; [done|by eapply partition_before].
    + exists (String c s), []. split; [done|by apply partition_none].
Qed.

Lemma split_fuel_last n sep s : exists x, last (Str.split_fuel n sep s) = Some x.
Proof.
  revert s. induction n as [|n IH]; intros s; simpl; [by eexists|].
  destruct (Str.partition sep s) as [[b a]|]; [|by eexists].
  destruct (IH a) as [x Hx]. exists x.
  destruct (Str.split_fuel n sep a); [done|]. by rewrite last_cons, Hx.
Qed.

(** A stripped text is a part of the text. *)
Lemma lstrip_suffix s : exists p, s = p +:+ Str.lstrip s.
Proof.
  induction s as [|c s [p IH]]; [by exists EmptyString|]. simpl.
  destruct (Str.is_space c).
  - exists (String c p). by rewrite StrFacts.app_cons, <- IH.
  - by exists EmptyString.
Qed.

Lemma rstrip_prefix s : exists q, s = Str.rstrip s +:+ q.
Proof.
  induction s as [|c s [q IH]]; [by exists EmptyString|]. simpl.
  destruct (Str.rstrip s) as [|c' r] eqn:E.
  - destruct (Str.is_space c).
    + by exists (String c s).
    + exists s. done.
  - exists q. by rewrite StrFacts.app_cons, <- IH.
Qed.

Lemma strip_occurs s : occurs (Str.strip s) s.
Proof.
  unfold Str.strip. destruct (lstrip_suffix s) as [p Hp].
  destruct (rstrip_prefix (Str.lstrip s)) as [q Hq].
  exists p, q. by rewrite <- Hq.
Qed.

Lemma occurs_trans a b c : occurs a b -> occurs b c -> occurs a c.
Proof.
  intros (p & q & ->) (p' & q' & ->). exists (p' +:+ p), (q +:+ q').
  by rewrite !StrFacts.app_assoc.
Qed.

Lemma strip_clean sep s :
  Str.contains sep s = false -> Str.contains sep (Str.strip s) = false.
Proof.
  intros H. destruct (Str.contains sep (Str.strip s)) eqn:E; [|done].
  apply StrFacts.contains_occurs in E.
  pose proof (occurs_trans _ _ _ E (strip_occurs s)) as Ho.
  apply StrFacts.contains_occurs in Ho. congruence.
Qed.

Lemma py_last_split sep a : exists x, py_last (Str.split sep a) = Return x.
Proof.
  unfold py_last, Str.split.
  destruct (split_fuel_last (String.length a) sep a) as [x ->]. by exists x.
Qed.

Lemma py_first_split sep x :
  sep <> EmptyString ->
  exists b, py_first (Str.split sep x) = Return b /\ Str.contains sep b = false.
Proof.
  intros Hsep. destruct (split_first sep x Hsep) as (b & l & -> & Hb).
  by exists b.
Qed.

End ExtractFacts.

(** X9.  The extraction never raises, and the text it hands to the
    decoder is stripped and never holds a triple backquote: a JSON text
    that needs one inside a string cannot reach the decoder whole. *)
Theorem extract_json_clean (response_text : string) :
  exists text,
    extract_json response_text = Return text
    /\ Str.contains "```" text = false
    /\ Str.strip text = text.
Proof.
  unfold extract_json.
  assert (Hfence : forall sep a,
             exists b,
               (x ← py_last (Str.split sep a);
                y ← py_first (Str.split "```" x);
                Return (Str.strip y)) = Return (Str.strip b)
               /\ Str.contains "```" b = false).
  { intros sep a.
    destruct (ExtractFacts.py_last_split sep a) as [x ->].
    rewrite bind_Return.
    destruct (ExtractFacts.py_first_split "```" x) as (b & -> & Hb); [done|].
    exists b. by split. }
  destruct (Str.contains "```json" (Str.strip response_text)).
  - destruct (Hfence "```json" (Str.strip response_text)) as (b & -> & Hb).
    eexists. split; [done|].
    split; [by apply ExtractFacts.strip_clean|apply SplitFacts.strip_idemp].
  - destruct (Str.contains "```" (Str.strip response_text)) eqn:Hc.
    + destruct (Hfence "```" (Str.strip response_text)) as (b & -> & Hb).
      eexists. split; [done|].
      split; [by apply ExtractFacts.strip_clean|apply SplitFacts.strip_idemp].
    + eexists. split; [done|]. split; [done|apply SplitFacts.strip_idemp].
Qed.

Lemma split_cons sep s b a :
  sep <> EmptyString ->
  Str.partition sep s = Some (b, a) ->
  Str.split sep s = b :: Str.split sep a.
Proof.
  intros Hsep Hp. unfold Str.split.
  pose proof (SplitFacts.partition_length _ _ _ _ Hp) as Hl.
  assert (0 < String.length sep) by (destruct sep; simpl; [done|lia]).
  destruct (String.length s) as [|n] eqn:E; [lia|].
  simpl. rewrite Hp. f_equal.
  apply SplitFacts.split_fuel_enough; [done|lia|lia].
Qed.

(** A fenced block without the [json] tag, closed: three segments, the
    last one empty. *)
Lemma split_plain_fence inner :
  Str.contains "```" (inner +:+ "``") = false ->
  Str.split "```" ("```" +:+ inner +:+ "```") = [EmptyString; inner; EmptyString].
Proof.
  intros H.
  rewrite (split_cons "```" _ EmptyString (inner +:+ "```")); [|done|done].
  rewrite (split_cons "```" _ inner EmptyString); [done|done|].
  by apply SplitFacts.partition_closing_fence.
Qed.

(** X10.  A response that is one closed fenced block without the [json]
    tag is never read, whatever is inside: the extraction keeps the empty
    text that follows the closing fence, decoding it fails, and the client
    receives the error reply with status 200. *)
Theorem closed_plain_fence_not_read (st : state) (w : world)
  (request : ChatRequest.t) (raw inner : string) :
  provider_answer st w request = Some (Return raw) ->
  Str.strip raw = "```" +:+ inner +:+ "```" ->
  Str.contains "```json" (Str.strip raw) = false ->
  Str.contains "```" (inner +:+ "``") = false ->
  extract_json raw = Return EmptyString
  /\ exists description,
       (chat_endpoint st w request).2
       = OK (ChatResponse.new
               ("I'm having trouble connecting to my brain right now. Error details: "
                +:+ description) None (resolve_session_id request w)).
Proof.
  intros Hp Hs Hj Hn.
  assert (He : extract_json raw = Return EmptyString).
  { unfold extract_json. rewrite Hj, Hs.
    assert (Str.contains "```" ("```" +:+ inner +:+ "```") = true) as ->.
    { apply StrFacts.contains_occurs. by exists EmptyString, (inner +:+ "```"). }
    by rewrite split_plain_fence. }
  split; [exact He|].
  apply answered_provider in Hp as (c & Hans & _).
  rewrite chat_endpoint_unfold. cbn [fst snd]. rewrite Hans, bind_Return.
  unfold read_reply. rewrite He. eexists. reflexivity.
Qed.

Lemma closed_plain_fence_not_read_witness :
  provider_answer gemma_state (answering plain_fenced_hi) hello
  = Some (Return plain_fenced_hi)
  /\ Str.strip plain_fenced_hi
     = "```" +:+ (Str.newline +:+ hi_object +:+ Str.newline) +:+ "```"
  /\ Str.contains "```json" (Str.strip plain_fenced_hi) = false
  /\ Str.contains "```" ((Str.newline +:+ hi_object +:+ Str.newline) +:+ "``")
     = false
  /\ json_loads (Str.strip (Str.newline +:+ hi_object +:+ Str.newline))
     = Return (JObj [("ai_reply", JStr "hi"); ("grammar_correction", JNull)])
  /\ extract_json plain_fenced_hi = Return EmptyString.
Proof.
  do 5 (split; [vm_compute; reflexivity|]).
  apply (closed_plain_fence_not_read gemma_state (answering plain_fenced_hi)
           hello plain_fenced_hi (Str.newline +:+ hi_object +:+ Str.newline));
    vm_compute; reflexivity.
Defined.

(** ** More on reading the reply *)

(** X11.  A response that decodes to anything but an object (an array, a
    string, a number, a boolean, null) is answered with status 200 and
    the error text of the failed [get], which names the Python type of
    the value. *)
Theorem non_object_reply_is_error (st : state) (w : world)
  (request : ChatRequest.t) (raw : string) (v : json) :
  provider_answer st w request = Some (Return raw) ->
  extract_json raw ≫= json_loads = Return v ->
  (forall d, v <> JObj d) ->
  (chat_endpoint st w request).2
  = OK (ChatResponse.new
          ("I'm having trouble connecting to my brain right now. Error details: '"
           +:+ type_name v +:+ "' object has no attribute 'get'")
          None (resolve_session_id request w)).
Proof.
  intros Hp Hd Hv.
  apply answered_provider in Hp as (c & Hans & _).
  rewrite chat_endpoint_unfold. cbn [fst snd]. rewrite Hans, bind_Return.
  unfold read_reply.
  destruct (extract_json raw) as [t|e]; [|done].
  change (json_loads t = Return v) in Hd.
  rewrite bind_Return, Hd, bind_Return.
  destruct v; try reflexivity. by destruct (Hv fields).
Qed.

Lemma non_object_reply_is_error_witness :
  provider_answer gemma_state (answering "[1, 2]") hello
  = Some (Return "[1, 2]")
  /\ extract_json "[1, 2]" ≫= json_loads = Return (JArr [JNum "1"; JNum "2"])
  /\ (chat_endpoint gemma_state (answering "[1, 2]") hello).2
     = OK (ChatResponse.new
             "I'm having trouble connecting to my brain right now. Error details: 'list' object has no attribute 'get'"
             None "s1").
Proof.
  do 2 (split; [vm_compute; reflexivity|]).
  apply (non_object_reply_is_error gemma_state (answering "[1, 2]") hello
           "[1, 2]" (JArr [JNum "1"; JNum "2"]));
    try (vm_compute; reflexivity).
  discriminate.
Defined.

(** X12.  The turns are recorded before the response is checked.  When
    the provider object carries a null [ai_reply], the response model
    rejects it and the client receives status 500, yet the session has
    gained the user turn and a model turn whose text is that null. *)
Theorem null_reply_rejected_after_recording (st : state) (w : world)
  (request : ChatRequest.t) (raw : string) (d : list (string * json)) :
  provider_answer st w request = Some (Return raw) ->
  extract_json raw ≫= json_loads = Return (JObj d) ->
  dict_lookup "ai_reply" d = Some JNull ->
  (chat_endpoint st w request).2 = InternalServerError
  /\ history (chat_endpoint st w request).1.1 (resolve_session_id request w)
     = last_n 20
         (history st (resolve_session_id request w)
          ++ [Message "user" [JStr (ChatRequest.user_message request)];
              Message "model" [JNull]]).
Proof.
  intros Hp Hd Ha.
  apply answered_provider in Hp as (c & Hans & _).
  rewrite bind_Return, (read_reply_object raw d Hd), Ha in Hans.
  pose proof (history_step_same st w request) as Hh.
  unfold exchange in Hh. cbn [fst snd] in Hh. rewrite Hans in Hh.
  split; [|exact Hh].
  rewrite chat_endpoint_unfold. cbn [fst snd]. by rewrite Hans.
Qed.

Lemma null_reply_rejected_after_recording_witness :
  provider_answer gemma_state (answering null_reply) hello
  = Some (Return null_reply)
  /\ extract_json null_reply ≫= json_loads
     = Return (JObj [("ai_reply", JNull); ("grammar_correction", JNull)])
  /\ (chat_endpoint gemma_state (answering null_reply) hello).2
     = InternalServerError
  /\ history (chat_endpoint gemma_state (answering null_reply) hello).1.1 "s1"
     = [Message "user" [JStr "Hello"]; Message "model" [JNull]].
Proof.
  do 2 (split; [vm_compute; reflexivity|]).
  destruct (null_reply_rejected_after_recording gemma_state
              (answering null_reply) hello null_reply
              [("ai_reply", JNull); ("grammar_correction", JNull)])
    as [H1 H2]; try (vm_compute; reflexivity).
  split; [exact H1|]. etrans; [exact H2|]. vm_compute. reflexivity.
Defined.

(** ** The two templates *)

Lemma chat_is_not_interview rest :
  Str.starts_with INTERVIEW_PROMPT (CHAT_PROMPT +:+ rest) = false.
Proof. vm_compute. reflexivity. Qed.

(** X13.  The prompt of a call tells the mode: it starts with the
    interview template exactly when the mode of the request is the
    literal interview, and with the chat template otherwise. *)
Theorem prompt_tells_the_mode (st : state) (w : world)
  (request : ChatRequest.t) (c : call) :
  c ∈ (chat_endpoint st w request).1.2 ->
  (Str.starts_with INTERVIEW_PROMPT (call_prompt c) = true
   <-> resolve_mode request = "interview")
  /\ (Str.starts_with INTERVIEW_PROMPT (call_prompt c) = false
      -> Str.starts_with CHAT_PROMPT (call_prompt c) = true).
Proof.
  rewrite chat_endpoint_unfold. cbn [fst snd].
  intros (_ & _ & Hp)%answered_calls.
  apply full_prompt_prefix in Hp as [rest ->]. unfold system_prompt.
  destruct (String.eqb_spec (resolve_mode request) "interview") as [->|Hne].
  - rewrite StrFacts.starts_with_app. split; [done|done].
  - rewrite chat_is_not_interview, StrFacts.starts_with_app.
    split; [split; [done|by intros ?]|done].
Qed.

Lemma prompt_tells_the_mode_witness :
  exists c,
    c ∈ (chat_endpoint gemma_state (answering "{}") interview_request).1.2
    /\ Str.starts_with INTERVIEW_PROMPT (call_prompt c) = true.
Proof.
  destruct (provider_called (sample_startup ["models/gemma-3-27b-it"]) []
              (answering "{}") interview_request
              {| model_name := "models/gemma-3-27b-it" |} eq_refl)
    as [prompt Hp].
  apply answered_provider in Hp as (c & Hc & _).
  assert (Hin : c ∈ (chat_endpoint gemma_state (answering "{}")
                       interview_request).1.2).
  { rewrite chat_endpoint_unfold. cbn [fst snd].
    change gemma_state
      with (run (bootstrap (sample_startup ["models/gemma-3-27b-it"])) []).
    rewrite Hc. destruct (_ ≫= read_reply) as [[a g]|e]; apply list_elem_of_here. }
  exists c. split; [exact Hin|].
  destruct (prompt_tells_the_mode _ _ _ c Hin) as [Hiff _].
  apply Hiff. reflexivity.
Defined.

(** ** What the utility prints *)

Lemma check_models_loop ms printed :
  CheckModels.loop ms printed
  = printed
    ++ map CheckModels.name
         (filter (fun m => "generateContent"
                           ∈ CheckModels.supported_generation_methods m) ms).
Proof.
  revert printed. induction ms as [|m ms IH]; intros printed; simpl.
  - by rewrite app_nil_r.
  - rewrite IH, filter_cons. case_bool_decide as Hm.
    + rewrite decide_True by done. simpl. by rewrite <- app_assoc.
    + by rewrite decide_False by done.
Qed.

(** X14.  The utility prints, after its heading, the names of the models
    that support [generateContent], each once and in the order the
    provider yields them, and nothing for the others; an exception that
    ends the enumeration, or one raised by [configure], is not caught;
    without a key (unset or empty) the only line is the notice and the
    provider is not asked anything. *)
Theorem check_models_output (w : CheckModels.world) :
  (CheckModels.env_GOOGLE_API_KEY w = None
   \/ CheckModels.env_GOOGLE_API_KEY w = Some EmptyString ->
   CheckModels.main w = (["No API Key found"], None))
  /\ (forall c key,
        CheckModels.env_GOOGLE_API_KEY w = Some (String c key) ->
        CheckModels.configure w (String c key) = Return () ->
        CheckModels.main w
        = ("List of available models:"
           :: map CheckModels.name
                (filter (fun m => "generateContent"
                                  ∈ CheckModels.supported_generation_methods m)
                   (CheckModels.list_models w).1),
           (CheckModels.list_models w).2))
  /\ (forall c key e,
        CheckModels.env_GOOGLE_API_KEY w = Some (String c key) ->
        CheckModels.configure w (String c key) = Raise e ->
        CheckModels.main w = ([], Some e)).
Proof.
  unfold CheckModels.main. split; [|split].
  - by intros [->| ->].
  - intros c key -> ->. by rewrite check_models_loop.
  - by intros c key e -> ->.
Qed.

Lemma check_models_output_witness :
  CheckModels.env_GOOGLE_API_KEY (script_world (Some "key")) = Some "key"
  /\ CheckModels.configure (script_world (Some "key")) "key" = Return ()
  /\ CheckModels.main (script_world (Some "key"))
     = (["List of available models:"; "models/gemini-2.0-flash";
         "models/gemma-3-4b-it"], None).
Proof.
  do 2 (split; [reflexivity|]).
  destruct (check_models_output (script_world (Some "key"))) as (_ & H & _).
  rewrite (H "k"%char "ey" eq_refl eq_refl). vm_compute. reflexivity.
Defined.

(** X15.  The utility and the server do not read the same credential:
    with only [GEMINI_API_KEY] set, the server configures the provider and
    gets its handle, while the utility reports that no key was found. *)
Theorem gemini_key_seen_by_server_only (w : startup)
  (cw : CheckModels.world) (c : ascii) (key : string)
  (available : list string) :
  env_GOOGLE_API_KEY w = None \/ env_GOOGLE_API_KEY w = Some EmptyString ->
  env_GEMINI_API_KEY w = Some (String c key) ->
  CheckModels.env_GOOGLE_API_KEY cw = env_GOOGLE_API_KEY w ->
  configure w (String c key) = Return () ->
  list_models w = Return available ->
  new_model w (select_spec available) = Return () ->
  model (bootstrap w) = Some {| model_name := select_spec available |}
  /\ CheckModels.main cw = (["No API Key found"], None).
Proof.
  intros Hg Hk Hc Hconf Hl Hn. split.
  - rewrite bootstrap_model. unfold handle_spec.
    destruct Hg as [-> | ->]; simpl; by rewrite Hk, Hconf, Hl, Hn.
  - unfold CheckModels.main. rewrite Hc. by destruct Hg as [-> | ->].
Qed.

Lemma gemini_key_seen_by_server_only_witness :
  env_GOOGLE_API_KEY (gemini_key_only ["models/gemma-3-4b-it"]) = None
  /\ env_GEMINI_API_KEY (gemini_key_only ["models/gemma-3-4b-it"]) = Some "key"
  /\ model (bootstrap (gemini_key_only ["models/gemma-3-4b-it"]))
     = Some {| model_name := "models/gemma-3-4b-it" |}
  /\ CheckModels.main (script_world None) = (["No API Key found"], None).
Proof.
  do 2 (split; [reflexivity|]).
  destruct (gemini_key_seen_by_server_only
              (gemini_key_only ["models/gemma-3-4b-it"]) (script_world None)
              "k" "ey" ["models/gemma-3-4b-it"])
    as [H1 H2]; try reflexivity.
  - by left.
  - split; [exact H1|exact H2].
Defined.

(** ** One call per request *)

(** X16.  The provider is never asked twice: in any run, a request makes
    exactly one call when the bootstrap set a handle, also when that call
    raises or its text cannot be decoded, and no call at all when the
    handle is unset. *)
Theorem single_provider_call (boot : startup)
  (evs : list (world * ChatRequest.t)) (w : world) (request : ChatRequest.t) :
  length (chat_endpoint (run (bootstrap boot) evs) w request).1.2
  = match model (bootstrap boot) with
    | Some _ => 1
    | None => 0
    end.
Proof.
  rewrite chat_endpoint_unfold. cbn [fst snd].
  destruct (model (bootstrap boot)) as [m|] eqn:Hm.
  - destruct (provider_called boot evs w request m Hm) as [prompt Hp].
    apply answered_provider in Hp as (c & -> & _).
    by destruct (_ ≫= read_reply) as [[a g]|e].
  - rewrite answered_mock; [done|]. by rewrite run_model.
Qed.
